(** * Backend-redirecter: the bulk-dispatch relay of [server.js]

    A shallow embedding of [src/server.js] (the form encoder [toFormBody],
    the sender [postOnce], the retry controller [postWithRetry] and the
    [POST /send-bulk] handler) together with the properties the
    specification states about them.

    JavaScript values are an inductive type, exceptions are an explicit
    completion, and the two effects of the program (calling the downstream
    endpoint with [fetch], pausing with [sleep]) are recorded in an event
    log that is threaded through a small state-and-exception monad. *)

From Stdlib Require Import String Ascii List Bool Arith ZArith QArith Qround Lia.
From Stdlib Require Import DecimalString FinFun.
Import ListNotations.

Set Warnings "-register-all".
Local Open Scope string_scope.
Local Open Scope list_scope.

(** ** JavaScript values *)

Module JS.

(** A JavaScript number: a finite value (every finite double is a
    rational), an infinity, or NaN. *)
Inductive number : Type :=
| Fin (q : Q)
| Inf (negative : bool)
| NaN.

(** The values a parsed JSON body can hold, plus [undefined].  The
    property list of an object is kept in the order in which
    [Object.entries] enumerates it; keys are unique.

    A string is held as the bytes of its UTF-8 encoding, which is what a
    string literal of this file holds: a character of the Basic Latin
    block is one byte, U+00A0 is the two bytes 194 160, and so on.  (A
    string with an unpaired surrogate has no such encoding and is not
    represented.) *)
Inductive value : Type :=
| VUndefined
| VNull
| VBool (b : bool)
| VNum (n : number)
| VStr (s : string)
| VArr (items : list value)
| VObj (props : list (string * value)).

Definition num_of_Z (z : Z) : value := VNum (Fin (inject_Z z)).
Definition num_of_nat (n : nat) : value := num_of_Z (Z.of_nat n).

(** ToBoolean. *)
Definition truthy (v : value) : bool :=
  match v with
  | VUndefined | VNull => false
  | VBool b => b
  | VNum (Fin q) => negb (Qeq_bool q 0)
  | VNum (Inf _) => true
  | VNum NaN => false
  | VStr s => negb (String.eqb s "")
  | VArr _ | VObj _ => true
  end.

(** [a || b] on values that are already evaluated. *)
Definition js_or (a b : value) : value := if truthy a then a else b.

(** [v === undefined], [v === null], and either of them. *)
Definition is_undefined (v : value) : bool :=
  match v with VUndefined => true | _ => false end.

Definition is_null (v : value) : bool :=
  match v with VNull => true | _ => false end.

Definition is_nullish (v : value) : bool :=
  match v with VUndefined | VNull => true | _ => false end.

Fixpoint lookup (k : string) (ps : list (string * value)) : option value :=
  match ps with
  | [] => None
  | (k', v) :: rest => if String.eqb k k' then Some v else lookup k rest
  end.

(** Property read [v.k] (and [v?.k]).  The source only reads the keys
    [apiUrl], [authHeader], [base], [recipients], [pauseMs], [maxRetries],
    [is_web], [name], [phone], [ok], [status] and [body]; none of them is
    a built-in property of a string, number, boolean or array, so only
    the own properties of an object can answer. *)
Definition get (v : value) (k : string) : value :=
  match v with
  | VObj ps => match lookup k ps with Some x => x | None => VUndefined end
  | _ => VUndefined
  end.

(** Property write [o.k = v] on a property list: an existing key keeps
    its place, a new key goes last.  (The keys the source writes are not
    array indices, which an engine would enumerate first.) *)
Fixpoint set_prop (k : string) (v : value) (ps : list (string * value))
  : list (string * value) :=
  match ps with
  | [] => [(k, v)]
  | (k', v') :: rest =>
      if String.eqb k k' then (k, v) :: rest else (k', v') :: set_prop k v rest
  end.

Definition string_of_nat (n : nat) : string :=
  NilZero.string_of_uint (Nat.to_uint n).

Fixpoint indexed {A : Type} (f : A -> value) (i : nat) (xs : list A)
  : list (string * value) :=
  match xs with
  | [] => []
  | x :: rest => (string_of_nat i, f x) :: indexed f (S i) rest
  end.

(** U+FFFD, the replacement character. *)
Definition replacement_char : string :=
  String (ascii_of_nat 239) (String (ascii_of_nat 191)
    (String (ascii_of_nat 189) EmptyString)).

(** The indexed properties of a string: one per UTF-16 code unit.  A
    character encoded on one, two or three bytes is one code unit.  A
    character encoded on four bytes is two code units, each an unpaired
    surrogate; the only reader of these properties is [URLSearchParams],
    which turns an unpaired surrogate into U+FFFD, and that is how each
    of the two is held here. *)
Fixpoint code_units (s : string) : list string :=
  match s with
  | EmptyString => []
  | String c1 rest1 =>
      if (nat_of_ascii c1 <? 192)%nat
      then String c1 EmptyString :: code_units rest1
      else
        match rest1 with
        | EmptyString => [String c1 EmptyString]
        | String c2 rest2 =>
            if (nat_of_ascii c1 <? 224)%nat
            then String c1 (String c2 EmptyString) :: code_units rest2
            else
              match rest2 with
              | EmptyString => [String c1 (String c2 EmptyString)]
              | String c3 rest3 =>
                  if (nat_of_ascii c1 <? 240)%nat
                  then String c1 (String c2 (String c3 EmptyString))
                         :: code_units rest3
                  else
                    match rest3 with
                    | EmptyString =>
                        [String c1 (String c2 (String c3 EmptyString))]
                    | String c4 rest4 =>
                        replacement_char :: replacement_char
                          :: code_units rest4
                    end
              end
        end
  end.

(** The own enumerable string-keyed properties of a value, as
    [Object.entries] and object spread see them. *)
Definition own_props (v : value) : list (string * value) :=
  match v with
  | VObj ps => ps
  | VArr xs => indexed (fun x => x) 0 xs
  | VStr s => indexed (fun c => VStr c) 0 (code_units s)
  | _ => []
  end.

(** [{ ...target, ...src }]: copy the own properties of [src], in order. *)
Definition spread (src : value) (target : list (string * value))
  : list (string * value) :=
  fold_left (fun ps kv => set_prop (fst kv) (snd kv) ps) (own_props src) target.

(** [Number.isFinite]. *)
Definition Number_isFinite (v : value) : bool :=
  match v with VNum (Fin _) => true | _ => false end.

(** [attempt <= n] and [attempt < n] for an integer counter [attempt]. *)
Definition Z_le_num (a : Z) (n : number) : bool :=
  match n with
  | Fin q => Qle_bool (inject_Z a) q
  | Inf negative => negb negative
  | NaN => false
  end.

Definition Z_lt_num (a : Z) (n : number) : bool :=
  match n with
  | Fin q => negb (Qle_bool q (inject_Z a))
  | Inf negative => negb negative
  | NaN => false
  end.

(** White space, as [String.prototype.trim] and [parseInt] strip it: the
    WhiteSpace and LineTerminator characters of ECMAScript, by the bytes
    of their UTF-8 encoding.

    One byte: TAB, LF, VT, FF, CR (9 to 13) and SPACE (32). *)
Definition ws1 (a : nat) : bool :=
  ((a =? 32) || ((9 <=? a) && (a <=? 13)))%nat.

(** Two bytes: U+00A0 NO-BREAK SPACE. *)
Definition ws2 (a b : nat) : bool :=
  ((a =? 194) && (b =? 160))%nat.

(** Three bytes: U+1680; U+2000 to U+200A, U+2028, U+2029 and U+202F;
    U+205F; U+3000; U+FEFF. *)
Definition ws3 (a b c : nat) : bool :=
  (((a =? 225) && (b =? 154) && (c =? 128))
   || ((a =? 226) && (b =? 128)
       && (((128 <=? c) && (c <=? 138)) || (c =? 168) || (c =? 169)
           || (c =? 175)))
   || ((a =? 226) && (b =? 129) && (c =? 159))
   || ((a =? 227) && (b =? 128) && (c =? 128))
   || ((a =? 239) && (b =? 187) && (c =? 191)))%nat.

(** [String.prototype.trimStart]: drop white-space characters while the
    string starts with one. *)
Fixpoint trimStart (s : string) : string :=
  match s with
  | EmptyString => EmptyString
  | String c1 rest1 =>
      if ws1 (nat_of_ascii c1) then trimStart rest1
      else
        match rest1 with
        | EmptyString => s
        | String c2 rest2 =>
            if ws2 (nat_of_ascii c1) (nat_of_ascii c2) then trimStart rest2
            else
              match rest2 with
              | EmptyString => s
              | String c3 rest3 =>
                  if ws3 (nat_of_ascii c1) (nat_of_ascii c2) (nat_of_ascii c3)
                  then trimStart rest3
                  else s
              end
        end
  end.

(** [String.prototype.trimEnd]: cut the string where all that is left is
    white space.  (A white-space character never starts on a
    continuation byte, so the cut falls between two characters.) *)
Fixpoint trimEnd (s : string) : string :=
  match s with
  | EmptyString => EmptyString
  | String c rest =>
      if String.eqb (trimStart s) "" then EmptyString
      else String c (trimEnd rest)
  end.

(** [String.prototype.trim]. *)
Definition trim (s : string) : string := trimEnd (trimStart s).

(** The outcome of evaluating an expression: a value, or a thrown
    exception, carried as the text [String(e)] gives for it. *)
Inductive completion (A : Type) : Type :=
| Normal (a : A)
| Throw (e : string).

Arguments Normal {A} a.
Arguments Throw {A} e.

Definition cbind {A B : Type} (c : completion A) (k : A -> completion B)
  : completion B :=
  match c with
  | Normal a => k a
  | Throw e => Throw e
  end.

(** [v.trim()]: only a string has a callable [trim]. *)
Definition call_trim (v : value) : completion value :=
  match v with
  | VStr s => Normal (VStr (trim s))
  | _ => Throw "TypeError: trim is not a function"
  end.

(** [a && b] with [b] evaluated only when [a] is truthy. *)
Definition js_and (a : value) (b : completion value) : completion value :=
  if truthy a then b else Normal a.

(** SameValueZero, the comparison of [Array.prototype.includes], against
    a primitive [x]: an array or object is never the same value as a
    primitive. *)
Definition same_value_zero (v x : value) : bool :=
  match v, x with
  | VUndefined, VUndefined => true
  | VNull, VNull => true
  | VBool a, VBool b => Bool.eqb a b
  | VNum (Fin p), VNum (Fin q) => Qeq_bool p q
  | VNum (Inf a), VNum (Inf b) => Bool.eqb a b
  | VNum NaN, VNum NaN => true
  | VStr a, VStr b => String.eqb a b
  | _, _ => false
  end.

Definition includes (xs : list value) (v : value) : bool :=
  existsb (same_value_zero v) xs.

Definition has_key (k : string) (ps : list (string * value)) : bool :=
  match lookup k ps with Some _ => true | None => false end.

End JS.

Import JS.

(** ** Effects: the downstream endpoint and the clock *)

(** What one [fetch] call sends. *)
Record fetch_request : Type := {
  url : value;
  headers : list (string * value);
  form : list (string * string)
}.

(** What one [fetch] call followed by [resp.text()] gives: a rejection
    (connection refused, DNS failure, invalid URL, ...) or a status and
    the response text. *)
Inductive fetch_outcome : Type :=
| Rejected (e : string)
| Responded (status : Z) (text : string).

Inductive event : Type :=
| EFetch (r : fetch_request)
| ESleep (ms : number).

(** The log of the effects performed so far, oldest first. *)
Definition world : Type := list event.

Definition is_fetch (e : event) : bool :=
  match e with EFetch _ => true | ESleep _ => false end.

Definition is_sleep (e : event) : bool :=
  match e with ESleep _ => true | EFetch _ => false end.

Definition fetch_count (w : world) : nat := length (filter is_fetch w).
Definition sleep_count (w : world) : nat := length (filter is_sleep w).

(** A computation reads and extends the log and either completes
    (normally or by throwing) or is still running when its fuel is spent
    ([None]). *)
Definition M (A : Type) : Type := world -> option (completion A * world).

Definition ret {A : Type} (a : A) : M A := fun w => Some (Normal a, w).

Definition throw {A : Type} (e : string) : M A := fun w => Some (Throw e, w).

Definition bind {A B : Type} (m : M A) (k : A -> M B) : M B :=
  fun w =>
    match m w with
    | None => None
    | Some (Normal a, w') => k a w'
    | Some (Throw e, w') => Some (Throw e, w')
    end.

Definition lift {A : Type} (c : completion A) : M A :=
  fun w => Some (c, w).

(** [try { m } catch (e) { ... }]: the completion of [m] as a value. *)
Definition try_catch {A : Type} (m : M A) : M (completion A) :=
  fun w =>
    match m w with
    | None => None
    | Some (c, w') => Some (Normal c, w')
    end.

Definition out_of_fuel {A : Type} : M A := fun _ => None.

Declare Scope js_scope.
Delimit Scope js_scope with js.
Notation "x <- m ;; k" := (bind m (fun x => k))
  (at level 61, m at next level, right associativity) : js_scope.
Notation "m ;;; k" := (bind m (fun _ => k))
  (at level 61, right associativity) : js_scope.
Local Open Scope js_scope.

(** [function sleep(ms)], awaited. *)
Definition sleep (ms : number) : M unit :=
  fun w => Some (Normal tt, w ++ [ESleep ms]).

(** ** The data of the program *)

(** [{ status, body }], the result of one request. *)
Record send_outcome : Type := {
  status : Z;
  body : value
}.

(** The incoming request: the [Authorization] header, when the client
    sent one, and the parsed JSON body ([undefined] when there is none). *)
Record request : Type := {
  authorization : option string;
  req_body : value
}.

(** What the handler answers: the status code and the JSON body. *)
Record response : Type := {
  code : Z;
  json : value
}.

(** The accumulators of the recipient loop. *)
Record tally : Type := {
  results : list value;
  success : nat;
  failed : nat
}.

(** ** A concrete runtime for running the program

    A number printer that is exact on integers, a [JSON.parse] that knows
    the empty object, and three downstream endpoints: one that always
    answers 503, one that always answers 200, and one whose first two
    calls are rejected and whose later calls answer 200. *)

Definition print_number (n : number) : string :=
  match n with
  | Fin q =>
      if (Zpos (Qden q) =? 1)%Z
      then NilZero.string_of_int (Z.to_int (Qnum q))
      else "NaN"
  | Inf true => "-Infinity"
  | Inf false => "Infinity"
  | NaN => "NaN"
  end.

Definition parse_json (text : string) : option value :=
  if String.eqb text "{}" then Some (VObj []) else None.

Definition always_503 (n : nat) (r : fetch_request) : fetch_outcome :=
  Responded 503 "busy".

Definition always_200 (n : nat) (r : fetch_request) : fetch_outcome :=
  Responded 200 "{}".

Definition fails_twice (n : nat) (r : fetch_request) : fetch_outcome :=
  if (n <? 2)%nat then Rejected "TypeError: fetch failed" else Responded 200 "{}".

(** The defaults the source falls back to when the environment sets
    nothing. *)
Definition fallback_api_url : string :=
  "https://api-dev.jivebird.com/jbcards/v2/upload/jb/".
Definition fallback_auth_header : string := "".
Definition fallback_max_retries : number := Fin 2.
Definition fallback_pause_ms : number := Fin 500.

Definition demo_url : value := VStr fallback_api_url.
Definition demo_auth : value := VStr "Token abc".
Definition demo_form : value := VObj [("receipt_phone", VStr "A")].
Definition demo_sp : list (string * string) := [("receipt_phone", "A")].

(** Requests for the concrete runs: three recipients, the second with
    an empty phone; a single recipient with a name and an empty phone;
    a request whose header and body credentials are both blank. *)
Definition demo_recipients : list value :=
  [VObj [("name", VStr "Ann"); ("phone", VStr "A")];
   VObj [("phone", VStr "")];
   VObj [("phone", VStr "C")]].

Definition demo_request : request :=
  {| authorization := Some " Token abc ";
     req_body := VObj [("base", VObj [("song_id", VStr "94"); ("is_web", VBool true)]);
                       ("recipients", VArr demo_recipients);
                       ("pauseMs", num_of_Z 500);
                       ("maxRetries", num_of_Z 2)] |}.

Definition bob_without_phone : value :=
  VObj [("name", VStr "Bob"); ("phone", VStr "")].

Definition bob_request : request :=
  {| authorization := Some "Token abc";
     req_body := VObj [("recipients", VArr [bob_without_phone])] |}.

Definition anonymous_request : request :=
  {| authorization := Some "   ";
     req_body := VObj [("authHeader", VStr " "); ("recipients", VArr demo_recipients)] |}.

Definition empty_tally : tally := {| results := []; success := 0; failed := 0 |}.

(** ** The process-wide defaults

    [DEFAULT_API_URL], [DEFAULT_AUTH_HEADER], [DEFAULT_MAX_RETRIES] and
    [DEFAULT_PAUSE_MS] as the source computes them at startup from
    [process.env], an environment variable being a string or absent. *)

Section Startup.

Variable env : string -> option string.

(** The Number value of an integer (exact up to 2^53). *)
Variable Number_of_Z : Z -> number.

Definition is_digit (c : ascii) : bool :=
  let n := nat_of_ascii c in (48 <=? n)%nat && (n <=? 57)%nat.

(** The value of the longest prefix of decimal digits, if there is one. *)
Fixpoint digits_value (s : string) (acc : option Z) : option Z :=
  match s with
  | EmptyString => acc
  | String c rest =>
      if is_digit c
      then digits_value rest
             (Some (10 * match acc with Some a => a | None => 0 end
                    + Z.of_nat (nat_of_ascii c - 48))%Z)
      else acc
  end.

(** The sign and the rest of a string once leading white space is
    dropped. *)
Definition signed_part (s : string) : Z * string :=
  match trimStart s with
  | String "-"%char rest => ((-1)%Z, rest)
  | String "+"%char rest => (1%Z, rest)
  | t => (1%Z, t)
  end.

(** [parseInt(s, 10)]. *)
Definition parseInt10 (s : string) : number :=
  match digits_value (snd (signed_part s)) None with
  | None => NaN
  | Some z => Number_of_Z (fst (signed_part s) * z)
  end.

(** [process.env.X || fallback] and [process.env.X ?? fallback]. *)
Definition env_or (name fallback : string) : string :=
  match env name with
  | Some s => if String.eqb s "" then fallback else s
  | None => fallback
  end.

Definition env_coalesce (name fallback : string) : string :=
  match env name with
  | Some s => s
  | None => fallback
  end.

Definition env_API_URL : string :=
  env_or "API_URL" "https://api-dev.jivebird.com/jbcards/v2/upload/jb/".

Definition env_AUTH_HEADER : string := env_or "AUTH_HEADER" "".

Definition env_MAX_RETRIES : number :=
  parseInt10 (env_coalesce "MAX_RETRIES" "2").

Definition env_PAUSE_MS : number :=
  parseInt10 (env_coalesce "PAUSE_MS_BETWEEN" "500").

End Startup.

(** U+00A0 and U+3000 as strings, and a request whose only credential
    is a no-break space. *)
Definition nbsp : string :=
  String (ascii_of_nat 194) (String (ascii_of_nat 160) EmptyString).

Definition ideographic_space : string :=
  String (ascii_of_nat 227) (String (ascii_of_nat 128)
    (String (ascii_of_nat 128) EmptyString)).

Definition nbsp_request : request :=
  {| authorization := None;
     req_body := VObj [("authHeader", VStr nbsp);
                       ("recipients", VArr demo_recipients)] |}.

(** Environments and requests for further concrete runs. *)
Definition no_env (name : string) : option string := None.

Definition broken_env (name : string) : option string :=
  if String.eqb name "MAX_RETRIES" then Some "two" else None.

Definition exact_number (z : Z) : number := Fin (inject_Z z).

Definition unprintable_form : value :=
  VObj [("receipt_phone", VObj [("toString", VNull)])].

Definition empty_list_request : request :=
  {| authorization := Some "Token abc";
     req_body := VObj [("recipients", VArr [])] |}.

Definition numeric_url_request : request :=
  {| authorization := Some "Token abc";
     req_body := VObj [("apiUrl", num_of_Z 7);
                       ("recipients", VArr demo_recipients)] |}.

Definition negative_retries_request : request :=
  {| authorization := Some "Token abc";
     req_body := VObj [("recipients", VArr demo_recipients);
                       ("maxRetries", num_of_Z (-1))] |}.

Definition plain_request : request :=
  {| authorization := Some "Token abc";
     req_body := VObj [("recipients", VArr demo_recipients)] |}.

(** ** The program *)

Section Server.

(** The parts of the runtime and of the environment the source relies
    on: [Number.prototype.toString], [JSON.parse] ([None] when it throws),
    the downstream endpoint (its answer may depend on how many calls came
    before) and the process-wide defaults read from the environment at
    startup. *)
Variable Number_toString : number -> string.
Variable JSON_parse : string -> option value.
Variable downstream : nat -> fetch_request -> fetch_outcome.
Variable DEFAULT_API_URL : string.
Variable DEFAULT_AUTH_HEADER : string.
Variable DEFAULT_MAX_RETRIES : number.
Variable DEFAULT_PAUSE_MS : number.

(** [String(v)].  An array joins its elements with commas, [null] and
    [undefined] elements giving the empty string.  An object answers with
    the inherited [toString] unless it has an own [toString] property,
    which (coming from JSON) is not callable, and then the conversion
    throws. *)
Fixpoint ToString (v : value) : completion string :=
  match v with
  | VUndefined => Normal "undefined"
  | VNull => Normal "null"
  | VBool true => Normal "true"
  | VBool false => Normal "false"
  | VNum n => Normal (Number_toString n)
  | VStr s => Normal s
  | VArr items =>
      (fix join (xs : list value) : completion string :=
         match xs with
         | [] => Normal ""
         | x :: rest =>
             cbind (if is_nullish x then Normal "" else ToString x) (fun a =>
             match rest with
             | [] => Normal a
             | _ :: _ => cbind (join rest) (fun b => Normal (a ++ "," ++ b)%string)
             end)
         end) items
  | VObj ps =>
      if has_key "toString" ps
      then Throw "TypeError: Cannot convert object to primitive value"
      else Normal "[object Object]"
  end.

(** [function toFormBody(obj)]: the entries appended to the
    [URLSearchParams], in order. *)
Fixpoint toFormBody_loop (entries : list (string * value))
  (sp : list (string * string)) : completion (list (string * string)) :=
  match entries with
  | [] => Normal sp
  | (k, v) :: rest =>
      if is_undefined v || is_null v
      then toFormBody_loop rest sp
      else cbind (ToString v) (fun s => toFormBody_loop rest (sp ++ [(k, s)]))
  end.

Definition toFormBody (obj : value) : completion (list (string * string)) :=
  toFormBody_loop (own_props (js_or obj (VObj []))) [].

Definition outcome_props (o : send_outcome) : list (string * value) :=
  [("status", num_of_Z (status o)); ("body", body o)].

(** [...last] where [last] is [null] or an outcome. *)
Definition spread_last (last : option send_outcome) : list (string * value) :=
  match last with
  | None => []
  | Some o => outcome_props o
  end.

Definition fetch (r : fetch_request) : M (Z * string) :=
  fun w =>
    let w' := w ++ [EFetch r] in
    match downstream (fetch_count w) r with
    | Rejected e => Some (Throw e, w')
    | Responded st text => Some (Normal (st, text), w')
    end.

(** The headers [postOnce] builds. *)
Definition post_headers (authHeader : value) : list (string * value) :=
  let headers0 := [("Content-Type", VStr "application/x-www-form-urlencoded")] in
  if truthy authHeader then set_prop "Authorization" authHeader headers0
  else headers0.

(** [try { json = JSON.parse(text); } catch { json = { raw: text }; }]. *)
Definition decode_body (text : string) : value :=
  match JSON_parse text with
  | Some j => j
  | None => VObj [("raw", VStr text)]
  end.

Definition post_request (apiUrl authHeader : value) (sp : list (string * string))
  : fetch_request :=
  {| url := apiUrl; headers := post_headers authHeader; form := sp |}.

(** [async function postOnce(apiUrl, formObj, authHeader)]. *)
Definition postOnce (apiUrl formObj authHeader : value) : M send_outcome :=
  sp <- lift (toFormBody formObj) ;;
  resp <- fetch (post_request apiUrl authHeader sp) ;;
  ret {| status := fst resp; body := decode_body (snd resp) |}.

Definition is_2xx (st : Z) : bool := (200 <=? st)%Z && (st <? 300)%Z.

(** [async function postWithRetry(apiUrl, formObj, authHeader, retries,
    pauseMs)]: the [for] loop from [attempt] on, with the current [last].
    Each turn of the loop takes one unit of fuel. *)
Fixpoint postWithRetry_loop (fuel : nat) (apiUrl formObj authHeader : value)
  (retries pauseMs : number) (attempt : Z) (last : option send_outcome)
  : M value :=
  match fuel with
  | O => out_of_fuel
  | S fuel' =>
      if Z_le_num attempt retries then
        let next (last' : option send_outcome) : M value :=
          (if Z_lt_num attempt retries then sleep pauseMs else ret tt) ;;;
          postWithRetry_loop fuel' apiUrl formObj authHeader retries pauseMs
            (attempt + 1)%Z last' in
        c <- try_catch (postOnce apiUrl formObj authHeader) ;;
        match c with
        | Normal res =>
            if is_2xx (status res)
            then ret (VObj ([("ok", VBool true); ("attempt", num_of_Z attempt)]
                              ++ outcome_props res))
            else next (Some res)
        | Throw e =>
            next (Some {| status := 0; body := VObj [("error", VStr e)] |})
        end
      else ret (VObj (("ok", VBool false) :: spread_last last))
  end.

Definition postWithRetry (fuel : nat) (apiUrl formObj authHeader : value)
  (retries pauseMs : number) : M value :=
  postWithRetry_loop fuel apiUrl formObj authHeader retries pauseMs 0%Z None.

(** What an attempt leaves in [last] when it does not succeed: the
    response as it came, or the synthetic outcome of the [catch] branch. *)
Definition attempt_outcome (o : fetch_outcome) : send_outcome :=
  match o with
  | Rejected e => {| status := 0; body := VObj [("error", VStr e)] |}
  | Responded st text => {| status := st; body := decode_body text |}
  end.

(** An attempt succeeds when it is answered with a status in [200,300). *)
Definition succeeded (o : fetch_outcome) : bool :=
  match o with
  | Rejected _ => false
  | Responded st _ => is_2xx st
  end.

(** The log of [k] attempts each followed by a pause. *)
Fixpoint paced_attempts (r : fetch_request) (pauseMs : number) (k : nat) : world :=
  match k with
  | O => []
  | S k' => EFetch r :: ESleep pauseMs :: paced_attempts r pauseMs k'
  end.

(** *** [POST /send-bulk] *)

Definition header_value (h : option string) : value :=
  match h with
  | Some s => VStr s
  | None => VUndefined
  end.

(** [(req.body?.apiUrl || DEFAULT_API_URL).trim()]. *)
Definition resolve_apiUrl (req : request) : completion value :=
  call_trim (js_or (get (req_body req) "apiUrl") (VStr DEFAULT_API_URL)).

(** The [authHeader] expression: header, else body field, else default. *)
Definition resolve_authHeader (req : request) : completion value :=
  let h := header_value (authorization req) in
  let b := get (req_body req) "authHeader" in
  cbind (js_and h (call_trim h)) (fun x =>
  if truthy x then Normal x else
  cbind (js_and b (call_trim b)) (fun y =>
  if truthy y then Normal y else Normal (VStr DEFAULT_AUTH_HEADER))).

(** [Number.isFinite(v) ? v : d]. *)
Definition finite_or (v : value) (d : number) : number :=
  match v with
  | VNum n => if Number_isFinite v then n else d
  | _ => d
  end.

(** The normalisation of [base.is_web], as an update of [base]. *)
Definition normalize_is_web (base : value) : value :=
  if negb (is_undefined (get base "is_web")) then
    let flag :=
      if includes [VStr "1"; VStr "true"; VStr "True"; num_of_Z 1; VBool true]
                  (get base "is_web")
      then VStr "1" else VStr "0" in
    match base with
    | VObj ps => VObj (set_prop "is_web" flag ps)
    | _ => base
    end
  else base.

Definition recipient_result (idx : nat) (name phone ok st bd : value) : value :=
  VObj [("index", num_of_nat (idx + 1)); ("name", name); ("phone", phone);
        ("ok", ok); ("status", st); ("body", bd)].

(** [recipients[idx] || {}], and the [name] and [phone] read from it. *)
Definition recipient_at (recipients : list value) (idx : nat) : value :=
  js_or (nth idx recipients VUndefined) (VObj []).

Definition name_of (r : value) : value := js_or (get r "name") (VStr "").

Definition phone_of (r : value) : value := get r "phone".

(** [{ ...base, receipt_phone: phone }], with [receipt_name] when the
    name is truthy. *)
Definition payload_of (base name phone : value) : value :=
  let payload0 := set_prop "receipt_phone" phone (spread base []) in
  VObj (if truthy name then set_prop "receipt_name" name payload0 else payload0).

Definition missing_phone (idx : nat) (name phone : value) : value :=
  recipient_result idx name phone (VBool false) (num_of_Z 400)
    (VObj [("error", VStr "Missing phone")]).

(** The tally after the outcome [out] of recipient [idx] is recorded. *)
Definition record_outcome (idx : nat) (name phone out : value) (t : tally) : tally :=
  let results' := results t ++
    [recipient_result idx name phone (get out "ok") (get out "status")
       (get out "body")] in
  if truthy (get out "ok")
  then {| results := results'; success := S (success t); failed := failed t |}
  else {| results := results'; success := success t; failed := S (failed t) |}.

(** The body of the recipient loop for index [idx]. *)
Definition process_recipient (fuel : nat) (apiUrl authHeader base : value)
  (maxRetries pauseMs : number) (recipients : list value) (idx : nat)
  (t : tally) : M tally :=
  let r := recipient_at recipients idx in
  let name := name_of r in
  let phone := phone_of r in
  if negb (truthy phone) then
    ret {| results := results t ++ [missing_phone idx name phone];
           success := success t;
           failed := S (failed t) |}
  else
    out <- postWithRetry fuel apiUrl (payload_of base name phone) authHeader
             maxRetries pauseMs ;;
    let t' := record_outcome idx name phone out t in
    sleep pauseMs ;;;
    ret t'.

(** [for (let idx = ...; idx < recipients.length; idx++) body], over the
    indices still to visit. *)
Fixpoint for_each (idxs : list nat) (body : nat -> tally -> M tally)
  (t : tally) : M tally :=
  match idxs with
  | [] => ret t
  | idx :: rest => t' <- body idx t ;; for_each rest body t'
  end.

Definition missing_auth : response :=
  {| code := 400;
     json := VObj [("error",
       VStr "Missing auth (send 'Authorization' header or 'authHeader' in body)")] |}.

Definition bad_recipients : response :=
  {| code := 400;
     json := VObj [("error", VStr "recipients must be a non-empty array")] |}.

Definition report (total : nat) (t : tally) : response :=
  {| code := 200;
     json := VObj [("summary",
                    VObj [("total", num_of_nat total);
                          ("success", num_of_nat (success t));
                          ("failed", num_of_nat (failed t))]);
                   ("results", VArr (results t))] |}.

(** The [try] block of the handler. *)
Definition send_bulk_try (fuel : nat) (req : request) : M response :=
  apiUrl <- lift (resolve_apiUrl req) ;;
  authHeader <- lift (resolve_authHeader req) ;;
  if negb (truthy authHeader) then ret missing_auth else
  let base := js_or (get (req_body req) "base") (VObj []) in
  let recipients := js_or (get (req_body req) "recipients") (VArr []) in
  let pauseMs := finite_or (get (req_body req) "pauseMs") DEFAULT_PAUSE_MS in
  let maxRetries := finite_or (get (req_body req) "maxRetries") DEFAULT_MAX_RETRIES in
  match recipients with
  | VArr rs =>
      if (length rs =? 0)%nat then ret bad_recipients else
      let base' := normalize_is_web base in
      t <- for_each (seq 0 (length rs))
             (process_recipient fuel apiUrl authHeader base' maxRetries pauseMs rs)
             {| results := []; success := 0; failed := 0 |} ;;
      ret (report (length rs) t)
  | _ => ret bad_recipients
  end.

(** The handler: what it answers and the log it leaves.  An exception
    in the [try] block becomes a 500. *)
Definition send_bulk (fuel : nat) (req : request) (w : world)
  : option (response * world) :=
  match send_bulk_try fuel req w with
  | None => None
  | Some (Normal r, w') => Some (r, w')
  | Some (Throw e, w') =>
      Some ({| code := 500; json := VObj [("error", VStr e)] |}, w')
  end.


(** *** Vocabulary of the specification *)

(** The values the specification lists as turning [is_web] on. *)
Definition is_web_on (v : value) : Prop :=
  v = VStr "1" \/ v = VStr "true" \/ v = VStr "True" \/
  (exists q, v = VNum (Fin q) /\ (q == 1)%Q) \/ v = VBool true.

(** An [Authorization] header that is absent or blank after trimming. *)
Definition blank_header (h : option string) : Prop :=
  h = None \/ exists s, h = Some s /\ trim s = "".

(** A body field that is absent (or otherwise falsy) or a string that is
    blank after trimming. *)
Definition blank_field (b : value) : Prop :=
  truthy b = false \/ exists s, b = VStr s /\ trim s = "".

(** The entries [toFormBody] keeps. *)
Definition kept_entries (obj : value) : list (string * value) :=
  filter (fun e => negb (is_nullish (snd e))) (own_props (js_or obj (VObj []))).

(** How many turns the loop of [postWithRetry] can take at most. *)
Definition attempts_bound (retries : number) : nat :=
  match retries with
  | Fin q => Z.to_nat (Qfloor q + 1)
  | _ => 0
  end.

(** *** Vocabulary for the effect log and the report *)

(** How many turns the loop of [postWithRetry] can still take from
    [attempt = a] on. *)
Definition attempts_left (retries : number) (a : Z) : nat :=
  match retries with
  | Fin q => Z.to_nat (Qfloor q + 1 - a)
  | _ => 0
  end.

(** An event [postWithRetry] may add to the log: a request for the
    encoded [formObj] with the given URL and headers, or a pause of
    [pauseMs]. *)
Definition attempt_event (apiUrl formObj authHeader : value) (pauseMs : number)
  (e : event) : Prop :=
  match e with
  | EFetch r =>
      exists sp, toFormBody formObj = Normal sp /\
                 r = post_request apiUrl authHeader sp
  | ESleep ms => ms = pauseMs
  end.

(** An event the recipient loop may add: an attempt for the payload of
    one of the recipients that have a phone, or a pause. *)
Definition dispatch_event (apiUrl authHeader base : value) (pauseMs : number)
  (rs : list value) (e : event) : Prop :=
  match e with
  | EFetch r =>
      exists idx sp,
        (idx < length rs)%nat /\
        truthy (phone_of (recipient_at rs idx)) = true /\
        toFormBody (payload_of base (name_of (recipient_at rs idx))
                      (phone_of (recipient_at rs idx))) = Normal sp /\
        r = post_request apiUrl authHeader sp
  | ESleep ms => ms = pauseMs
  end.

(** The indices among [i, i + n) whose recipient has a truthy phone. *)
Definition dispatched (rs : list value) (i n : nat) : list nat :=
  filter (fun idx => truthy (phone_of (recipient_at rs idx))) (seq i n).

(** [x.ok] as a condition. *)
Definition is_ok (x : value) : bool := truthy (get x "ok").

(** The configuration the handler derives from a request. *)
Definition resolved_base (req : request) : value :=
  normalize_is_web (js_or (get (req_body req) "base") (VObj [])).

Definition resolved_pauseMs (req : request) : number :=
  finite_or (get (req_body req) "pauseMs") DEFAULT_PAUSE_MS.

Definition resolved_maxRetries (req : request) : number :=
  finite_or (get (req_body req) "maxRetries") DEFAULT_MAX_RETRIES.

(** The answer to an exception caught by the handler. *)
Definition internal_error (e : string) : response :=
  {| code := 500; json := VObj [("error", VStr e)] |}.

(** What the result recorded for the recipient at [idx] looks like. *)
Definition result_for (rs : list value) (idx : nat) (x : value) : Prop :=
  let r := recipient_at rs idx in
  get x "index" = num_of_nat (idx + 1) /\
  get x "name" = name_of r /\
  get x "phone" = phone_of r /\
  (exists b, get x "ok" = VBool b) /\
  (truthy (phone_of r) = false ->
     get x "ok" = VBool false /\ get x "status" = num_of_Z 400 /\
     get x "body" = VObj [("error", VStr "Missing phone")]) /\
  (get x "ok" = VBool true ->
     truthy (phone_of r) = true /\
     exists st, get x "status" = num_of_Z st /\ (200 <= st < 300)%Z).

(** ** Properties *)

(** *** Numbers and the log *)

Lemma Z_le_num_int (a r : Z) : Z_le_num a (Fin (inject_Z r)) = (a <=? r)%Z.
Proof.
  unfold Z_le_num, Qle_bool; simpl. now rewrite !Z.mul_1_r.
Qed.

Lemma Z_lt_num_int (a r : Z) : Z_lt_num a (Fin (inject_Z r)) = (a <? r)%Z.
Proof.
  unfold Z_lt_num, Qle_bool; simpl. rewrite !Z.mul_1_r.
  symmetry. apply Z.ltb_antisym.
Qed.

Lemma fetch_count_app (w1 w2 : world) :
  fetch_count (w1 ++ w2) = (fetch_count w1 + fetch_count w2)%nat.
Proof.
  unfold fetch_count. now rewrite filter_app, length_app.
Qed.

Lemma sleep_count_app (w1 w2 : world) :
  sleep_count (w1 ++ w2) = (sleep_count w1 + sleep_count w2)%nat.
Proof.
  unfold sleep_count. now rewrite filter_app, length_app.
Qed.

Lemma fetch_count_paced (r : fetch_request) (pauseMs : number) (k : nat) :
  fetch_count (paced_attempts r pauseMs k) = k.
Proof.
  induction k as [|k IH]; [reflexivity|].
  change (S (fetch_count (paced_attempts r pauseMs k)) = S k). now rewrite IH.
Qed.

Lemma sleep_count_paced (r : fetch_request) (pauseMs : number) (k : nat) :
  sleep_count (paced_attempts r pauseMs k) = k.
Proof.
  induction k as [|k IH]; [reflexivity|].
  change (S (sleep_count (paced_attempts r pauseMs k)) = S k). now rewrite IH.
Qed.

(** *** The sender and one turn of the retry loop *)

Section Retry.

Variables apiUrl formObj authHeader : value.
Variable pauseMs : number.
Variable sp : list (string * string).
Hypothesis encoded : toFormBody formObj = Normal sp.

Let rq : fetch_request := post_request apiUrl authHeader sp.

Lemma postOnce_run (w : world) :
  postOnce apiUrl formObj authHeader w =
  Some (match downstream (fetch_count w) rq with
        | Rejected e => Throw e
        | Responded st text => Normal {| status := st; body := decode_body text |}
        end, w ++ [EFetch rq]).
Proof.
  unfold postOnce, bind, lift, fetch, ret. rewrite encoded. fold rq.
  destruct (downstream (fetch_count w) rq); reflexivity.
Qed.

Lemma loop_exit (fuel : nat) (retries : number) (a : Z)
  (last : option send_outcome) (w : world) :
  Z_le_num a retries = false ->
  postWithRetry_loop (S fuel) apiUrl formObj authHeader retries pauseMs a last w =
  Some (Normal (VObj (("ok", VBool false) :: spread_last last)), w).
Proof.
  intros Hle. simpl. now rewrite Hle.
Qed.

Lemma loop_step_success (fuel : nat) (retries : number) (a : Z)
  (last : option send_outcome) (w : world) (st : Z) (text : string) :
  Z_le_num a retries = true ->
  downstream (fetch_count w) rq = Responded st text ->
  is_2xx st = true ->
  postWithRetry_loop (S fuel) apiUrl formObj authHeader retries pauseMs a last w =
  Some (Normal (VObj [("ok", VBool true); ("attempt", num_of_Z a);
                      ("status", num_of_Z st); ("body", decode_body text)]),
        w ++ [EFetch rq]).
Proof.
  intros Hle Hd H2. simpl. rewrite Hle.
  unfold bind at 1. unfold try_catch. rewrite postOnce_run, Hd. simpl.
  now rewrite H2.
Qed.

Lemma loop_step_fail (fuel : nat) (retries : number) (a : Z)
  (last : option send_outcome) (w : world) :
  Z_le_num a retries = true ->
  succeeded (downstream (fetch_count w) rq) = false ->
  postWithRetry_loop (S fuel) apiUrl formObj authHeader retries pauseMs a last w =
  postWithRetry_loop fuel apiUrl formObj authHeader retries pauseMs (a + 1)
    (Some (attempt_outcome (downstream (fetch_count w) rq)))
    (if Z_lt_num a retries then w ++ [EFetch rq; ESleep pauseMs]
     else w ++ [EFetch rq]).
Proof.
  intros Hle Hs. simpl. rewrite Hle.
  unfold bind at 1. unfold try_catch. rewrite postOnce_run.
  destruct (downstream (fetch_count w) rq) as [e|st text]; simpl in *.
  - destruct (Z_lt_num a retries); unfold bind, sleep, ret; simpl;
      now rewrite <- ?app_assoc.
  - rewrite Hs.
    destruct (Z_lt_num a retries); unfold bind, sleep, ret; simpl;
      now rewrite <- ?app_assoc.
Qed.

(** The outcome held in [last] after [k] failed attempts from [w] on. *)
Lemma loop_paced_prefix (r : Z) (k : nat) :
  forall (fuel : nat) (a : Z) (last : option send_outcome) (w : world),
  (a + Z.of_nat k <= r)%Z ->
  (forall i, (i < k)%nat ->
     succeeded (downstream (fetch_count w + i) rq) = false) ->
  postWithRetry_loop (k + fuel) apiUrl formObj authHeader
    (Fin (inject_Z r)) pauseMs a last w =
  postWithRetry_loop fuel apiUrl formObj authHeader
    (Fin (inject_Z r)) pauseMs (a + Z.of_nat k)
    (match k with
     | O => last
     | S k' => Some (attempt_outcome (downstream (fetch_count w + k') rq))
     end)
    (w ++ paced_attempts rq pauseMs k).
Proof.
  induction k as [|k IH]; intros fuel a last w Hk Hfail.
  - simpl. now rewrite Z.add_0_r, app_nil_r.
  - change (S k + fuel)%nat with (S (k + fuel)).
    rewrite loop_step_fail.
    + rewrite Z_lt_num_int.
      replace (a <? r)%Z with true by (symmetry; apply Z.ltb_lt; lia).
      rewrite IH.
      * replace (a + 1 + Z.of_nat k)%Z with (a + Z.of_nat (S k))%Z by lia.
        rewrite <- app_assoc. simpl app.
        f_equal. destruct k as [|k'].
        -- now rewrite Nat.add_0_r.
        -- rewrite fetch_count_app. simpl. do 3 f_equal.
           change (fetch_count [EFetch rq; ESleep pauseMs]) with 1%nat. lia.
      * lia.
      * intros i Hi. rewrite fetch_count_app.
        change (fetch_count [EFetch rq; ESleep pauseMs]) with 1%nat.
        replace (fetch_count w + 1 + i)%nat with (fetch_count w + S i)%nat by lia.
        apply Hfail. lia.
    + rewrite Z_le_num_int. apply Z.leb_le. lia.
    + specialize (Hfail 0%nat). rewrite Nat.add_0_r in Hfail. apply Hfail. lia.
Qed.

End Retry.

(** *** The retry controller *)

(** Whatever the sender does, the retry controller completes normally:
    an exception of an attempt never leaves it. *)
Lemma postWithRetry_loop_never_throws (fuel : nat) :
  forall (apiUrl formObj authHeader : value) (retries pauseMs : number)
         (a : Z) (last : option send_outcome) (w w' : world)
         (c : completion value),
  postWithRetry_loop fuel apiUrl formObj authHeader retries pauseMs a last w
    = Some (c, w') ->
  exists v, c = Normal v.
Proof.
  induction fuel as [|fuel IH]; intros apiUrl formObj authHeader retries pauseMs
    a last w w' c H.
  - discriminate H.
  - simpl in H. destruct (Z_le_num a retries).
    + unfold bind at 1 in H. unfold try_catch in H.
      destruct (postOnce apiUrl formObj authHeader w) as [[c1 w1]|];
        [|discriminate H].
      destruct c1 as [res|e].
      * destruct (is_2xx (status res)).
        -- inversion H; subst. eauto.
        -- unfold bind in H.
           destruct (Z_lt_num a retries); simpl in H; eapply IH; exact H.
      * unfold bind in H.
        destruct (Z_lt_num a retries); simpl in H; eapply IH; exact H.
    + inversion H; subst. eauto.
Qed.

(** C3: with [retries = r >= 0] and a downstream none of whose attempts
    succeeds (for instance one that always answers 503), [postWithRetry]
    makes exactly [r + 1] attempts, pausing between them, and returns
    [{ok: false, status, body}] with the status and body of the last
    attempt; the result has no [attempt] field. *)
Theorem postWithRetry_exhausted
  (apiUrl formObj authHeader : value) (pauseMs : number)
  (sp : list (string * string)) (r : Z) (fuel : nat) (w : world) :
  toFormBody formObj = Normal sp ->
  (0 <= r)%Z ->
  (forall i, (i <= Z.to_nat r)%nat ->
     succeeded (downstream (fetch_count w + i)
                  (post_request apiUrl authHeader sp)) = false) ->
  (Z.to_nat r + 1 < fuel)%nat ->
  exists (out : list (string * value)) (w' : world),
    postWithRetry fuel apiUrl formObj authHeader (Fin (inject_Z r)) pauseMs w
      = Some (Normal (VObj out), w') /\
    out = ("ok", VBool false) ::
          outcome_props (attempt_outcome
            (downstream (fetch_count w + Z.to_nat r)
               (post_request apiUrl authHeader sp))) /\
    lookup "attempt" out = None /\
    w' = w ++ paced_attempts (post_request apiUrl authHeader sp) pauseMs (Z.to_nat r)
           ++ [EFetch (post_request apiUrl authHeader sp)] /\
    fetch_count w' = (fetch_count w + (Z.to_nat r + 1))%nat.
Proof.
  intros Hsp Hr Hfail Hfuel.
  set (rq := post_request apiUrl authHeader sp) in *.
  set (k := Z.to_nat r) in *.
  eexists. eexists. split; [|split; [reflexivity|split; [reflexivity|split; [reflexivity|]]]].
  - unfold postWithRetry.
    replace fuel with (k + S (S (fuel - k - 2)))%nat by lia.
    rewrite (loop_paced_prefix apiUrl formObj authHeader pauseMs sp Hsp r k)
      by (try lia; intros i Hi; apply Hfail; lia).
    fold rq.
    rewrite (loop_step_fail apiUrl formObj authHeader pauseMs sp Hsp); fold rq.
    + rewrite Z_lt_num_int.
      replace (0 + Z.of_nat k <? r)%Z with false by (symmetry; apply Z.ltb_ge; lia).
      rewrite (loop_exit apiUrl formObj authHeader pauseMs).
      * rewrite fetch_count_app, fetch_count_paced.
        now rewrite <- app_assoc.
      * rewrite Z_le_num_int. apply Z.leb_gt. lia.
    + rewrite Z_le_num_int. apply Z.leb_le. lia.
    + rewrite fetch_count_app, fetch_count_paced. apply Hfail. lia.
  - rewrite !fetch_count_app, fetch_count_paced. reflexivity.
Qed.

(** C4: when attempt [k <= retries] is the first one answered with a
    status in [200,300), [postWithRetry] returns [{ok: true, attempt: k,
    status, body}] right after it: the log ends with that attempt.  The
    earlier attempts may have been rejected; a rejected attempt is caught,
    leaves [{status: 0, body: {error}}] in [last], and the loop goes on;
    no exception leaves the controller. *)
Theorem postWithRetry_first_success
  (apiUrl formObj authHeader : value) (pauseMs : number)
  (sp : list (string * string)) (r : Z) (k : nat) (st : Z) (text : string)
  (fuel : nat) (w : world) :
  toFormBody formObj = Normal sp ->
  (Z.of_nat k <= r)%Z ->
  (forall i, (i < k)%nat ->
     succeeded (downstream (fetch_count w + i)
                  (post_request apiUrl authHeader sp)) = false) ->
  downstream (fetch_count w + k) (post_request apiUrl authHeader sp)
    = Responded st text ->
  is_2xx st = true ->
  (k < fuel)%nat ->
  (exists w',
     postWithRetry fuel apiUrl formObj authHeader (Fin (inject_Z r)) pauseMs w
       = Some (Normal (VObj [("ok", VBool true); ("attempt", num_of_nat k);
                             ("status", num_of_Z st);
                             ("body", decode_body text)]), w') /\
     w' = w ++ paced_attempts (post_request apiUrl authHeader sp) pauseMs k
            ++ [EFetch (post_request apiUrl authHeader sp)] /\
     fetch_count w' = (fetch_count w + (k + 1))%nat) /\
  (forall fuel' a last w0 e,
     (a <= r)%Z ->
     downstream (fetch_count w0) (post_request apiUrl authHeader sp) = Rejected e ->
     postWithRetry_loop (S fuel') apiUrl formObj authHeader (Fin (inject_Z r))
       pauseMs a last w0 =
     postWithRetry_loop fuel' apiUrl formObj authHeader (Fin (inject_Z r))
       pauseMs (a + 1)
       (Some {| status := 0; body := VObj [("error", VStr e)] |})
       (if (a <? r)%Z
        then w0 ++ [EFetch (post_request apiUrl authHeader sp); ESleep pauseMs]
        else w0 ++ [EFetch (post_request apiUrl authHeader sp)])) /\
  (forall fuel' w0 w1 c,
     postWithRetry fuel' apiUrl formObj authHeader (Fin (inject_Z r)) pauseMs w0
       = Some (c, w1) ->
     exists v, c = Normal v).
Proof.
  intros Hsp Hk Hfail Hok H2 Hfuel.
  set (rq := post_request apiUrl authHeader sp) in *.
  split; [|split].
  - eexists. split; [|split; [reflexivity|]].
    + unfold postWithRetry.
      replace fuel with (k + S (fuel - k - 1))%nat by lia.
      rewrite (loop_paced_prefix apiUrl formObj authHeader pauseMs sp Hsp r k)
        by (try lia; exact Hfail).
      fold rq.
      rewrite (loop_step_success apiUrl formObj authHeader pauseMs sp Hsp)
        with (st := st) (text := text); fold rq.
      * now rewrite <- app_assoc.
      * rewrite Z_le_num_int. apply Z.leb_le. lia.
      * now rewrite fetch_count_app, fetch_count_paced.
      * exact H2.
    + rewrite !fetch_count_app, fetch_count_paced. reflexivity.
  - intros fuel' a last w0 e Ha Hrej.
    rewrite (loop_step_fail apiUrl formObj authHeader pauseMs sp Hsp); fold rq.
    + now rewrite Hrej, Z_lt_num_int.
    + rewrite Z_le_num_int. apply Z.leb_le. lia.
    + now rewrite Hrej.
  - intros fuel' w0 w1 c Hrun.
    eapply postWithRetry_loop_never_throws. exact Hrun.
Qed.

(** C9: a finite negative [retries] passes the [Number.isFinite] test of
    the handler, and with it [postWithRetry] runs its loop body zero
    times: it returns [{ok: false}] spread over the [null] outcome, an
    object without [status] and [body], throws nothing and leaves the log
    (so the downstream endpoint) untouched. *)
Theorem postWithRetry_negative_retries
  (apiUrl formObj authHeader : value) (q : Q) (pauseMs d : number)
  (fuel : nat) (w : world) :
  (q < 0)%Q ->
  Number_isFinite (VNum (Fin q)) = true /\
  finite_or (VNum (Fin q)) d = Fin q /\
  postWithRetry (S fuel) apiUrl formObj authHeader (Fin q) pauseMs w
    = Some (Normal (VObj [("ok", VBool false)]), w) /\
  get (VObj [("ok", VBool false)]) "status" = VUndefined /\
  get (VObj [("ok", VBool false)]) "body" = VUndefined.
Proof.
  intros Hq. repeat split.
  unfold postWithRetry. simpl.
  destruct (Qle_bool (inject_Z 0) q) eqn:E; [|reflexivity].
  apply Qle_bool_iff in E. exfalso.
  apply (Qlt_not_le _ _ Hq). exact E.
Qed.

(** *** The form encoder *)

Lemma is_undefined_or_null (v : value) :
  is_undefined v || is_null v = is_nullish v.
Proof. destruct v; reflexivity. Qed.


Lemma toFormBody_loop_total (entries : list (string * value)) :
  forall (sp : list (string * string)),
  (forall k v, In (k, v) entries -> is_nullish v = false ->
     exists s, ToString v = Normal s) ->
  exists out, toFormBody_loop entries sp = Normal out.
Proof.
  induction entries as [|[k v] rest IH]; intros sp Hall.
  - eexists; reflexivity.
  - simpl. rewrite is_undefined_or_null.
    destruct (is_nullish v) eqn:En.
    + apply IH. intros k' v' Hin. apply (Hall k' v'). now right.
    + destruct (Hall k v (or_introl eq_refl) En) as [s ->]. simpl.
      apply IH. intros k' v' Hin. apply (Hall k' v'). now right.
Qed.



(** Values of the kinds the specification allows in the field mapping
    (strings, numbers, booleans) are always encoded. *)
Lemma toFormBody_scalars (ps : list (string * value)) :
  (forall k v, In (k, v) ps ->
     match v with VArr _ | VObj _ => False | _ => True end) ->
  exists out, toFormBody (VObj ps) = Normal out.
Proof.
  intros Hsc. unfold toFormBody. simpl.
  apply toFormBody_loop_total. intros k v Hin _.
  specialize (Hsc k v Hin).
  destruct v as [| |[|]|n|s|xs|qs]; try contradiction; eexists; reflexivity.
Qed.

(** *** Property lists *)

Lemma lookup_set_same (k : string) (v : value) (ps : list (string * value)) :
  lookup k (set_prop k v ps) = Some v.
Proof.
  induction ps as [|[k' v'] rest IH]; simpl.
  - now rewrite String.eqb_refl.
  - destruct (String.eqb k k') eqn:E; simpl.
    + now rewrite String.eqb_refl.
    + now rewrite E.
Qed.

Lemma lookup_set_other (k k0 : string) (v : value) (ps : list (string * value)) :
  k0 <> k -> lookup k0 (set_prop k v ps) = lookup k0 ps.
Proof.
  intros Hne. induction ps as [|[k' v'] rest IH]; simpl.
  - apply String.eqb_neq in Hne. now rewrite Hne.
  - destruct (String.eqb k k') eqn:E; simpl.
    + apply String.eqb_eq in E. subst k'.
      apply String.eqb_neq in Hne. now rewrite Hne.
    + now rewrite IH.
Qed.

Lemma set_prop_keys (k : string) (v v0 : value) (ps : list (string * value)) :
  lookup k ps = Some v0 -> map fst (set_prop k v ps) = map fst ps.
Proof.
  induction ps as [|[k' v'] rest IH]; simpl; [discriminate|].
  destruct (String.eqb k k') eqn:E; simpl.
  - apply String.eqb_eq in E. now subst.
  - intros H. now rewrite IH.
Qed.

(** *** Normalisation of [is_web] *)

Lemma same_value_zero_str (v : value) (s : string) :
  same_value_zero v (VStr s) = true <-> v = VStr s.
Proof.
  destruct v as [| |b|[p|b|]|s'|xs|ps]; simpl; try (split; [discriminate|discriminate]).
  rewrite String.eqb_eq. split; congruence.
Qed.

Lemma same_value_zero_bool (v : value) (b : bool) :
  same_value_zero v (VBool b) = true <-> v = VBool b.
Proof.
  destruct v as [| |b'|[p|b'|]|s'|xs|ps]; simpl; try (split; [discriminate|discriminate]).
  rewrite Bool.eqb_true_iff. split; congruence.
Qed.

Lemma same_value_zero_fin (v : value) (q : Q) :
  same_value_zero v (VNum (Fin q)) = true <->
  exists p, v = VNum (Fin p) /\ (p == q)%Q.
Proof.
  destruct v as [| |b'|[p|b'|]|s'|xs|ps]; simpl;
    try (split; [discriminate|intros [p0 [H0 _]]; discriminate H0]).
  rewrite Qeq_bool_iff. split.
  - intros H. exists p. now split.
  - intros [p0 [H0 H1]]. inversion H0; subst. exact H1.
Qed.

Lemma includes_is_web_on (v : value) :
  includes [VStr "1"; VStr "true"; VStr "True"; num_of_Z 1; VBool true] v = true
  <-> is_web_on v.
Proof.
  unfold includes, is_web_on, num_of_Z. simpl existsb.
  rewrite !orb_true_iff, !same_value_zero_str, same_value_zero_bool,
    same_value_zero_fin.
  change (inject_Z 1) with 1%Q.
  split.
  - intros [H|[H|[H|[H|[H|H]]]]]; try discriminate H; auto.
  - intros [H|[H|[H|[H|H]]]]; auto 6.
Qed.

Lemma is_web_on_defined (v : value) : is_web_on v -> v <> VUndefined.
Proof.
  intros [H|[H|[H|[[q [H _]]|H]]]] E; rewrite E in H; discriminate H.
Qed.

Lemma is_undefined_false (v : value) : v <> VUndefined -> is_undefined v = false.
Proof. destruct v; simpl; congruence. Qed.

(** C7: a present [base.is_web] becomes ["1"] exactly when it is one of
    ["1"], ["true"], ["True"], [1], [true], and ["0"] for any other
    present value; an absent one leaves [base] as it is.  The update is
    in place: the other fields and the order of the keys are kept. *)
Theorem is_web_normalized (base : value) :
  (get base "is_web" = VUndefined -> normalize_is_web base = base) /\
  (is_web_on (get base "is_web") ->
     get (normalize_is_web base) "is_web" = VStr "1") /\
  (get base "is_web" <> VUndefined -> ~ is_web_on (get base "is_web") ->
     get (normalize_is_web base) "is_web" = VStr "0") /\
  (forall k, k <> "is_web" -> get (normalize_is_web base) k = get base k) /\
  map fst (own_props (normalize_is_web base)) = map fst (own_props base).
Proof.
  unfold normalize_is_web.
  destruct (is_undefined (get base "is_web")) eqn:Eu; simpl negb; cbv iota.
  - assert (get base "is_web" = VUndefined) as Hu
      by (destruct (get base "is_web"); try discriminate Eu; reflexivity).
    repeat split; try reflexivity.
    + intros Hon. now apply is_web_on_defined in Hon.
    + intros Hdef. contradiction.
  - destruct base as [| |b|n|s|xs|ps]; try discriminate Eu.
    assert (exists v0, lookup "is_web" ps = Some v0) as [v0 Hv0].
    { simpl in Eu. destruct (lookup "is_web" ps) as [v0|]; [eauto|discriminate Eu]. }
    split; [|split; [|split; [|split]]].
    + intros Hu. rewrite Hu in Eu. discriminate Eu.
    + intros Hon. apply includes_is_web_on in Hon. rewrite Hon.
      simpl. now rewrite lookup_set_same.
    + intros _ Hoff.
      destruct (includes _ (get (VObj ps) "is_web")) eqn:Ei.
      * apply includes_is_web_on in Ei. contradiction.
      * simpl. now rewrite lookup_set_same.
    + intros k Hk. simpl. now rewrite lookup_set_other.
    + simpl. now apply set_prop_keys with (v0 := v0).
Qed.

(** *** Resolution of the authentication *)

Lemma truthy_str (s : string) : truthy (VStr s) = true <-> s <> "".
Proof.
  simpl. rewrite negb_true_iff. apply String.eqb_neq.
Qed.

Lemma trim_nonblank (s : string) : trim s <> "" -> truthy (VStr s) = true.
Proof.
  intros H. apply truthy_str. intros ->. now apply H.
Qed.

Lemma and_trim_nonblank (s : string) :
  trim s <> "" ->
  js_and (VStr s) (call_trim (VStr s)) = Normal (VStr (trim s)).
Proof.
  intros H. unfold js_and. now rewrite (trim_nonblank s H).
Qed.

Lemma and_trim_blank_header (h : option string) :
  blank_header h ->
  exists x, js_and (header_value h) (call_trim (header_value h)) = Normal x /\
            truthy x = false.
Proof.
  intros [->|[s [-> Hs]]].
  - exists VUndefined. now split.
  - simpl header_value. unfold js_and.
    destruct (truthy (VStr s)) eqn:Et.
    + exists (VStr (trim s)). split; [reflexivity|]. now rewrite Hs.
    + exists (VStr s). now split.
Qed.

Lemma and_trim_blank_field (b : value) :
  blank_field b ->
  exists y, js_and b (call_trim b) = Normal y /\ truthy y = false.
Proof.
  intros [Hf|[s [-> Hs]]].
  - exists b. unfold js_and. now rewrite Hf.
  - unfold js_and. destruct (truthy (VStr s)) eqn:Et.
    + exists (VStr (trim s)). split; [reflexivity|]. now rewrite Hs.
    + exists (VStr s). now split.
Qed.

(** C6: the authentication is the [Authorization] header when it is
    present and not blank after trimming, else the [authHeader] field of
    the body when it is present and not blank after trimming, else the
    process default.  When all three are empty or absent the handler
    answers before any downstream call (the log is unchanged), and its
    answer is the 400 "Missing auth" (given an [apiUrl] field that is
    absent or a string, which is read first). *)
Theorem auth_precedence (req : request) :
  (forall s, authorization req = Some s -> trim s <> "" ->
     resolve_authHeader req = Normal (VStr (trim s))) /\
  (blank_header (authorization req) ->
   forall s, get (req_body req) "authHeader" = VStr s -> trim s <> "" ->
     resolve_authHeader req = Normal (VStr (trim s))) /\
  (blank_header (authorization req) ->
   blank_field (get (req_body req) "authHeader") ->
     resolve_authHeader req = Normal (VStr DEFAULT_AUTH_HEADER)) /\
  (blank_header (authorization req) ->
   blank_field (get (req_body req) "authHeader") ->
   DEFAULT_AUTH_HEADER = "" ->
   forall fuel w,
   exists resp,
     send_bulk fuel req w = Some (resp, w) /\
     (truthy (get (req_body req) "apiUrl") = false \/
      (exists u, get (req_body req) "apiUrl" = VStr u) ->
      resp = missing_auth /\ code resp = 400%Z)).
Proof.
  assert (Hblank : blank_header (authorization req) ->
                   blank_field (get (req_body req) "authHeader") ->
                   resolve_authHeader req = Normal (VStr DEFAULT_AUTH_HEADER)).
  { intros Hh Hb. unfold resolve_authHeader.
    destruct (and_trim_blank_header _ Hh) as [x [-> Hx]]. simpl. rewrite Hx.
    destruct (and_trim_blank_field _ Hb) as [y [-> Hy]]. simpl. now rewrite Hy. }
  split; [|split; [|split]].
  - intros s Hs Ht. unfold resolve_authHeader. rewrite Hs. simpl header_value.
    rewrite (and_trim_nonblank s Ht). unfold cbind.
    now rewrite (proj2 (truthy_str (trim s)) Ht).
  - intros Hh s Hs Ht. unfold resolve_authHeader.
    destruct (and_trim_blank_header _ Hh) as [x [-> Hx]]. unfold cbind. rewrite Hx.
    rewrite Hs, (and_trim_nonblank s Ht). unfold cbind.
    now rewrite (proj2 (truthy_str (trim s)) Ht).
  - exact Hblank.
  - intros Hh Hb Hd fuel w.
    unfold send_bulk, send_bulk_try. unfold bind at 1. unfold lift at 1.
    destruct (resolve_apiUrl req) as [u|e] eqn:Eu.
    + unfold bind at 1. unfold lift at 1.
      rewrite (Hblank Hh Hb), Hd. simpl.
      eexists. split; [reflexivity|]. intros _. now split.
    + eexists. split; [reflexivity|].
      intros Hu. exfalso. unfold resolve_apiUrl, js_or in Eu.
      destruct Hu as [Hf|[u Hu]].
      * rewrite Hf in Eu. discriminate Eu.
      * rewrite Hu in Eu. destruct (truthy (VStr u)); discriminate Eu.
Qed.

(** *** One recipient *)

Lemma process_recipient_missing (fuel : nat) (apiUrl authHeader base : value)
  (maxRetries pauseMs : number) (rs : list value) (idx : nat) (t : tally)
  (w : world) :
  truthy (phone_of (recipient_at rs idx)) = false ->
  process_recipient fuel apiUrl authHeader base maxRetries pauseMs rs idx t w =
  Some (Normal {| results := results t ++
                    [missing_phone idx (name_of (recipient_at rs idx))
                       (phone_of (recipient_at rs idx))];
                  success := success t;
                  failed := S (failed t) |}, w).
Proof.
  intros Hp. unfold process_recipient. now rewrite Hp.
Qed.

Lemma process_recipient_dispatch (fuel : nat) (apiUrl authHeader base : value)
  (maxRetries pauseMs : number) (rs : list value) (idx : nat) (t : tally)
  (w : world) :
  truthy (phone_of (recipient_at rs idx)) = true ->
  process_recipient fuel apiUrl authHeader base maxRetries pauseMs rs idx t w =
  match postWithRetry fuel apiUrl
          (payload_of base (name_of (recipient_at rs idx))
             (phone_of (recipient_at rs idx)))
          authHeader maxRetries pauseMs w with
  | None => None
  | Some (Normal out, w1) =>
      Some (Normal (record_outcome idx (name_of (recipient_at rs idx))
                      (phone_of (recipient_at rs idx)) out t),
            w1 ++ [ESleep pauseMs])
  | Some (Throw e, w1) => Some (Throw e, w1)
  end.
Proof.
  intros Hp. unfold process_recipient. rewrite Hp.
  cbv beta iota delta [negb bind].
  destruct (postWithRetry fuel apiUrl _ authHeader maxRetries pauseMs w)
    as [[[out|e] w1]|]; reflexivity.
Qed.

Lemma falsy_entry (rs : list value) (idx : nat) :
  truthy (nth idx rs VUndefined) = false ->
  recipient_at rs idx = VObj [] /\
  name_of (recipient_at rs idx) = VStr "" /\
  phone_of (recipient_at rs idx) = VUndefined.
Proof.
  intros Hf. unfold recipient_at, js_or. rewrite Hf. repeat split.
Qed.

(** C5: a recipient whose [phone] is missing or empty gets the result
    [{ok: false, status: 400, body: {error: "Missing phone"}}] and counts
    as failed; nothing is sent for it: the log is unchanged, whatever the
    downstream endpoint and the fuel. *)
Theorem missing_phone_no_call (fuel : nat) (apiUrl authHeader base : value)
  (maxRetries pauseMs : number) (rs : list value) (idx : nat) (t : tally)
  (w : world) :
  truthy (phone_of (recipient_at rs idx)) = false ->
  exists x w',
    process_recipient fuel apiUrl authHeader base maxRetries pauseMs rs idx t w =
      Some (Normal {| results := results t ++ [x];
                      success := success t;
                      failed := S (failed t) |}, w') /\
    get x "ok" = VBool false /\
    get x "status" = num_of_Z 400 /\
    get x "body" = VObj [("error", VStr "Missing phone")] /\
    w' = w /\ fetch_count w' = fetch_count w.
Proof.
  intros Hp. eexists. exists w. split.
  - now apply process_recipient_missing.
  - repeat split.
Qed.

(** C10, as the code has it: an entry without a truthy [phone] (a falsy
    entry such as [null] among them) does not stop the loop and throws
    nothing: its result [{index, name, phone, ok: false, status: 400,
    body: {error: "Missing phone"}}] is appended, with the entry's own
    [name] (or [""]) and [phone], and the loop goes on with the next
    index.  For a falsy entry the record read is [{}], so [name] is [""]
    and [phone] is [undefined]. *)
Theorem entry_without_phone_continues (fuel : nat)
  (apiUrl authHeader base : value) (maxRetries pauseMs : number)
  (rs : list value) (idx : nat) (rest : list nat) (t : tally) (w : world) :
  truthy (phone_of (recipient_at rs idx)) = false ->
  for_each (idx :: rest)
    (process_recipient fuel apiUrl authHeader base maxRetries pauseMs rs) t w =
  for_each rest
    (process_recipient fuel apiUrl authHeader base maxRetries pauseMs rs)
    {| results := results t ++
         [VObj [("index", num_of_nat (idx + 1));
                ("name", name_of (recipient_at rs idx));
                ("phone", phone_of (recipient_at rs idx));
                ("ok", VBool false); ("status", num_of_Z 400);
                ("body", VObj [("error", VStr "Missing phone")])]];
       success := success t;
       failed := S (failed t) |} w /\
  (truthy (nth idx rs VUndefined) = false ->
   name_of (recipient_at rs idx) = VStr "" /\
   phone_of (recipient_at rs idx) = VUndefined).
Proof.
  intros Hp. split.
  - simpl for_each. unfold bind at 1.
    now rewrite process_recipient_missing.
  - intros Hf. now destruct (falsy_entry rs idx Hf) as [_ H].
Qed.

(** C1, as the code has it: after a recipient with a truthy [phone] the
    dispatcher records the outcome of [postWithRetry] and then sleeps
    [pauseMs]; for a recipient whose [phone] is missing or empty it
    records the result and goes on without sleeping. *)
Theorem pause_after_dispatch (fuel : nat) (apiUrl authHeader base : value)
  (maxRetries pauseMs : number) (rs : list value) (idx : nat) (t : tally)
  (w : world) :
  (truthy (phone_of (recipient_at rs idx)) = true ->
   forall out w1,
   postWithRetry fuel apiUrl
     (payload_of base (name_of (recipient_at rs idx))
        (phone_of (recipient_at rs idx)))
     authHeader maxRetries pauseMs w = Some (Normal out, w1) ->
   process_recipient fuel apiUrl authHeader base maxRetries pauseMs rs idx t w =
     Some (Normal (record_outcome idx (name_of (recipient_at rs idx))
                     (phone_of (recipient_at rs idx)) out t),
           w1 ++ [ESleep pauseMs])) /\
  (truthy (phone_of (recipient_at rs idx)) = false ->
   exists t',
   process_recipient fuel apiUrl authHeader base maxRetries pauseMs rs idx t w =
     Some (Normal t', w)).
Proof.
  split.
  - intros Hp out w1 Hrun. rewrite process_recipient_dispatch by exact Hp.
    now rewrite Hrun.
  - intros Hp. eexists. now apply process_recipient_missing.
Qed.

(** *** Termination *)

Lemma postOnce_returns (apiUrl formObj authHeader : value) (w : world) :
  exists c w', postOnce apiUrl formObj authHeader w = Some (c, w').
Proof.
  unfold postOnce, bind, lift, fetch, ret.
  destruct (toFormBody formObj) as [sp|e]; [|eauto].
  destruct (downstream _ _); eauto.
Qed.

Lemma Z_le_num_floor (a : Z) (q : Q) :
  Z_le_num a (Fin q) = true -> (a <= Qfloor q)%Z.
Proof.
  simpl. intros H. apply Qle_bool_iff in H.
  apply Qfloor_resp_le in H. now rewrite Qfloor_Z in H.
Qed.

Lemma postWithRetry_loop_returns (apiUrl formObj authHeader : value)
  (retries pauseMs : number) (fuel : nat) :
  forall (a : Z) (last : option send_outcome) (w : world),
  retries <> Inf false ->
  (match retries with
   | Fin q => Z.to_nat (Qfloor q + 1 - a)
   | _ => 0
   end < fuel)%nat ->
  exists c w',
    postWithRetry_loop fuel apiUrl formObj authHeader retries pauseMs a last w
      = Some (c, w').
Proof.
  induction fuel as [|fuel IH]; intros a last w Hinf Hfuel; [lia|].
  simpl. destruct (Z_le_num a retries) eqn:Ele; [|unfold ret; eauto].
  assert (Hnext : forall last' w1,
    exists c w',
      postWithRetry_loop fuel apiUrl formObj authHeader retries pauseMs
        (a + 1) last' w1 = Some (c, w')).
  { intros last' w1. apply IH; [exact Hinf|].
    destruct retries as [q|[|]|]; try discriminate Ele; try congruence.
    apply Z_le_num_floor in Ele. lia. }
  unfold bind at 1. unfold try_catch.
  destruct (postOnce_returns apiUrl formObj authHeader w) as [c1 [w1 ->]].
  destruct c1 as [res|e].
  - destruct (is_2xx (status res)); [unfold ret; eauto|].
    unfold bind. destruct (Z_lt_num a retries); simpl; apply Hnext.
  - unfold bind. destruct (Z_lt_num a retries); simpl; apply Hnext.
Qed.

Lemma process_recipient_returns (fuel : nat) (apiUrl authHeader base : value)
  (maxRetries pauseMs : number) (rs : list value) (idx : nat) (t : tally)
  (w : world) :
  maxRetries <> Inf false ->
  (attempts_bound maxRetries < fuel)%nat ->
  exists c w',
    process_recipient fuel apiUrl authHeader base maxRetries pauseMs rs idx t w
      = Some (c, w').
Proof.
  intros Hinf Hfuel.
  destruct (truthy (phone_of (recipient_at rs idx))) eqn:Hp.
  - rewrite process_recipient_dispatch by exact Hp.
    unfold postWithRetry.
    destruct (postWithRetry_loop_returns apiUrl
                (payload_of base (name_of (recipient_at rs idx))
                   (phone_of (recipient_at rs idx)))
                authHeader maxRetries pauseMs fuel 0 None w Hinf)
      as [c [w1 ->]].
    + unfold attempts_bound in Hfuel. destruct maxRetries; try exact Hfuel.
      now rewrite Z.sub_0_r.
    + destruct c; eauto.
  - rewrite process_recipient_missing by exact Hp. eauto.
Qed.

Lemma for_each_returns (fuel : nat) (apiUrl authHeader base : value)
  (maxRetries pauseMs : number) (rs : list value) (idxs : list nat) :
  maxRetries <> Inf false ->
  (attempts_bound maxRetries < fuel)%nat ->
  forall (t : tally) (w : world),
  exists c w',
    for_each idxs
      (process_recipient fuel apiUrl authHeader base maxRetries pauseMs rs) t w
      = Some (c, w').
Proof.
  intros Hinf Hfuel. induction idxs as [|idx rest IH]; intros t w.
  - simpl. unfold ret. eauto.
  - simpl. unfold bind at 1.
    destruct (process_recipient_returns fuel apiUrl authHeader base maxRetries
                pauseMs rs idx t w Hinf Hfuel) as [c [w1 ->]].
    destruct c as [t1|e]; [apply IH|eauto].
Qed.

(** *** The report *)

Lemma process_recipient_step (fuel : nat) (apiUrl authHeader base : value)
  (maxRetries pauseMs : number) (rs : list value) (idx : nat) (t : tally)
  (w w' : world) (c : completion tally) :
  process_recipient fuel apiUrl authHeader base maxRetries pauseMs rs idx t w
    = Some (c, w') ->
  exists t' x,
    c = Normal t' /\
    results t' = results t ++ [x] /\
    get x "index" = num_of_nat (idx + 1) /\
    (success t' + failed t' = S (success t + failed t))%nat.
Proof.
  intros H.
  destruct (truthy (phone_of (recipient_at rs idx))) eqn:Hp.
  - rewrite process_recipient_dispatch in H by exact Hp.
    destruct (postWithRetry fuel apiUrl _ authHeader maxRetries pauseMs w)
      as [[c1 w1]|] eqn:Erun; [|discriminate H].
    destruct (postWithRetry_loop_never_throws _ _ _ _ _ _ _ _ _ _ _ Erun)
      as [out ->].
    inversion H; subst. unfold record_outcome.
    destruct (truthy (get out "ok")); eexists; eexists;
      (split; [reflexivity|split; [reflexivity|split; [reflexivity|simpl; lia]]]).
  - rewrite process_recipient_missing in H by exact Hp.
    inversion H; subst. eexists; eexists.
    split; [reflexivity|split; [reflexivity|split; [reflexivity|simpl; lia]]].
Qed.

Lemma for_each_seq_invariant (fuel : nat) (apiUrl authHeader base : value)
  (maxRetries pauseMs : number) (rs : list value) (n : nat) :
  forall (i : nat) (t : tally) (w w' : world) (c : completion tally),
  for_each (seq i n)
    (process_recipient fuel apiUrl authHeader base maxRetries pauseMs rs) t w
    = Some (c, w') ->
  exists t',
    c = Normal t' /\
    map (fun x => get x "index") (results t') =
      map (fun x => get x "index") (results t) ++
      map (fun j => num_of_nat (j + 1)) (seq i n) /\
    (success t' + failed t' = success t + failed t + n)%nat.
Proof.
  induction n as [|n IH]; intros i t w w' c H.
  - simpl in H. inversion H; subst. exists t.
    split; [reflexivity|]. simpl. rewrite app_nil_r. split; [reflexivity|lia].
  - simpl in H. unfold bind at 1 in H.
    destruct (process_recipient fuel apiUrl authHeader base maxRetries pauseMs
                rs i t w) as [[c1 w1]|] eqn:Estep; [|discriminate H].
    destruct (process_recipient_step _ _ _ _ _ _ _ _ _ _ _ _ Estep)
      as [t1 [x [-> [Hres [Hidx Hsum]]]]].
    destruct (IH _ _ _ _ _ H) as [t' [-> [Hmap Hcount]]].
    exists t'. split; [reflexivity|]. split.
    + rewrite Hmap, Hres, map_app. simpl. rewrite Hidx.
      now rewrite <- app_assoc.
    + lia.
Qed.

Lemma num_of_nat_inj (a b : nat) : num_of_nat a = num_of_nat b -> a = b.
Proof.
  unfold num_of_nat, num_of_Z, inject_Z. intros H. inversion H. lia.
Qed.

Lemma NoDup_indices (n : nat) :
  NoDup (map (fun j => num_of_nat (j + 1)) (seq 0 n)).
Proof.
  apply Injective_map_NoDup; [|apply seq_NoDup].
  intros a b H. apply num_of_nat_inj in H. lia.
Qed.

(** C2: a request that passes the request-level validation (the URL and
    the authentication resolve, the authentication is not empty, and
    [recipients] is a non-empty array) is answered with a 200 whose
    [results] has one entry per recipient, whose [summary.total] is the
    number of recipients, whose [success] and [failed] add up to it, and
    whose i-th result carries the index [i + 1] (so the indices are
    distinct).  The handler does answer, given fuel for one run of the
    retry loop, unless the retry count is [+Infinity]. *)
Theorem send_bulk_report (req : request) (rs : list value) (u a : value)
  (fuel : nat) (w : world) :
  resolve_apiUrl req = Normal u ->
  resolve_authHeader req = Normal a ->
  truthy a = true ->
  get (req_body req) "recipients" = VArr rs ->
  rs <> [] ->
  (forall resp w',
     send_bulk fuel req w = Some (resp, w') ->
     exists t,
       resp = {| code := 200;
                 json := VObj [("summary",
                                VObj [("total", num_of_nat (length rs));
                                      ("success", num_of_nat (success t));
                                      ("failed", num_of_nat (failed t))]);
                               ("results", VArr (results t))] |} /\
       length (results t) = length rs /\
       (success t + failed t = length rs)%nat /\
       map (fun x => get x "index") (results t) =
         map (fun i => num_of_nat (i + 1)) (seq 0 (length rs)) /\
       NoDup (map (fun x => get x "index") (results t))) /\
  (finite_or (get (req_body req) "maxRetries") DEFAULT_MAX_RETRIES <> Inf false ->
   (attempts_bound
      (finite_or (get (req_body req) "maxRetries") DEFAULT_MAX_RETRIES) < fuel)%nat ->
   exists resp w', send_bulk fuel req w = Some (resp, w')).
Proof.
  intros Hu Ha Hta Hrs Hne.
  assert (Hlen : (length rs =? 0)%nat = false)
    by (destruct rs; [contradiction|reflexivity]).
  unfold send_bulk, send_bulk_try.
  rewrite Hu, Ha, Hrs. unfold lift.
  cbv beta iota delta [bind]. rewrite Hta.
  change (negb true) with false.
  change (js_or (VArr rs) (VArr [])) with (VArr rs).
  cbv beta iota. rewrite Hlen.
  split.
  - intros resp w' H.
    destruct (for_each (seq 0 (length rs)) _ _ w) as [[c w1]|] eqn:Erun;
      [|discriminate H].
    destruct (for_each_seq_invariant _ _ _ _ _ _ _ _ _ _ _ _ _ Erun)
      as [t [-> [Hmap Hcount]]].
    simpl in Hmap, Hcount. unfold ret in H. inversion H; subst.
    exists t. split; [reflexivity|].
    split; [|split; [exact Hcount|split; [exact Hmap|]]].
    + rewrite <- (length_map (fun x => get x "index")), Hmap, length_map.
      apply length_seq.
    + rewrite Hmap. apply NoDup_indices.
  - intros Hinf Hfuel.
    destruct (for_each_returns fuel u a
                (normalize_is_web (js_or (get (req_body req) "base") (VObj [])))
                _ (finite_or (get (req_body req) "pauseMs") DEFAULT_PAUSE_MS)
                rs (seq 0 (length rs)) Hinf Hfuel
                {| results := []; success := 0; failed := 0 |} w)
      as [c [w1 ->]].
    destruct c; unfold ret; eauto.
Qed.

(** ** Further properties of the sender and the retry controller *)

(** What a run of [postOnce] can be: the encoder threw and nothing was
    sent, or one request was sent and the completion is the downstream's
    answer. *)
Lemma postOnce_inv (apiUrl formObj authHeader : value) (w w' : world)
  (c : completion send_outcome) :
  postOnce apiUrl formObj authHeader w = Some (c, w') ->
  (exists e, toFormBody formObj = Throw e /\ c = Throw e /\ w' = w) \/
  (exists sp,
     toFormBody formObj = Normal sp /\
     w' = w ++ [EFetch (post_request apiUrl authHeader sp)] /\
     match c with
     | Throw e =>
         downstream (fetch_count w) (post_request apiUrl authHeader sp)
           = Rejected e
     | Normal res =>
         exists text,
           downstream (fetch_count w) (post_request apiUrl authHeader sp)
             = Responded (status res) text /\
           body res = decode_body text
     end).
Proof.
  unfold postOnce, bind, lift, fetch, ret.
  destruct (toFormBody formObj) as [sp|e] eqn:Eenc.
  - intros H. right. exists sp. split; [reflexivity|].
    destruct (downstream (fetch_count w) (post_request apiUrl authHeader sp))
      as [e|st text] eqn:Ed; inversion H; subst; (split; [reflexivity|]).
    + reflexivity.
    + exists text. now split.
  - intros H. inversion H; subst. left. exists e. repeat split.
Qed.

Lemma postOnce_log (apiUrl formObj authHeader : value) (pauseMs : number)
  (w w' : world) (c : completion send_outcome) :
  postOnce apiUrl formObj authHeader w = Some (c, w') ->
  exists log,
    w' = w ++ log /\
    Forall (attempt_event apiUrl formObj authHeader pauseMs) log /\
    (fetch_count log <= 1)%nat /\ sleep_count log = 0%nat.
Proof.
  intros H. apply postOnce_inv in H.
  destruct H as [[e [_ [_ ->]]]|[sp [Hsp [-> _]]]].
  - exists []. rewrite app_nil_r.
    split; [reflexivity|]. split; [apply Forall_nil|].
    split; [unfold fetch_count; simpl; lia|reflexivity].
  - exists [EFetch (post_request apiUrl authHeader sp)].
    split; [reflexivity|]. split.
    + apply Forall_cons; [|apply Forall_nil]. exists sp. now split.
    + split; [unfold fetch_count; simpl; lia|reflexivity].
Qed.

Lemma attempts_left_step (retries : number) (a : Z) :
  retries <> Inf false ->
  Z_le_num a retries = true ->
  attempts_left retries a = S (attempts_left retries (a + 1)).
Proof.
  intros Hinf Hle.
  destruct retries as [q|[|]|]; try discriminate Hle; try congruence.
  apply Z_le_num_floor in Hle. unfold attempts_left. lia.
Qed.

(** The log of a run of the retry loop. *)
Lemma postWithRetry_loop_log (apiUrl formObj authHeader : value)
  (retries pauseMs : number) (fuel : nat) :
  forall (a : Z) (last : option send_outcome) (w w' : world)
         (c : completion value),
  postWithRetry_loop fuel apiUrl formObj authHeader retries pauseMs a last w
    = Some (c, w') ->
  exists log,
    w' = w ++ log /\
    Forall (attempt_event apiUrl formObj authHeader pauseMs) log /\
    (Z_le_num a retries = false -> log = []) /\
    (retries <> Inf false ->
     (fetch_count log <= attempts_left retries a)%nat /\
     (sleep_count log <= attempts_left retries a)%nat).
Proof.
  induction fuel as [|fuel IH]; intros a last w w' c H; [discriminate H|].
  simpl in H. destruct (Z_le_num a retries) eqn:Ele.
  - unfold bind at 1 in H. unfold try_catch in H.
    destruct (postOnce apiUrl formObj authHeader w) as [[c1 w1]|] eqn:Eonce;
      [|discriminate H].
    destruct (postOnce_log _ _ _ pauseMs _ _ _ Eonce)
      as [l1 [-> [Hall1 [Hf1 Hs1]]]].
    assert (Hnext : forall last',
      ((if Z_lt_num a retries then sleep pauseMs else ret tt) ;;;
       postWithRetry_loop fuel apiUrl formObj authHeader retries pauseMs
         (a + 1) last') (w ++ l1) = Some (c, w') ->
      exists log,
        w' = w ++ log /\
        Forall (attempt_event apiUrl formObj authHeader pauseMs) log /\
        (true = false -> log = []) /\
        (retries <> Inf false ->
         (fetch_count log <= attempts_left retries a)%nat /\
         (sleep_count log <= attempts_left retries a)%nat)).
    { intros last' Hrun. unfold bind in Hrun.
      destruct (Z_lt_num a retries); simpl in Hrun;
        destruct (IH _ _ _ _ _ Hrun) as [l3 [-> [Hall3 [_ Hb3]]]].
      - exists (l1 ++ ESleep pauseMs :: l3).
        split; [now rewrite <- !app_assoc|].
        split; [apply Forall_app; split;
                  [exact Hall1|constructor; [reflexivity|exact Hall3]]|].
        split; [discriminate|]. intros Hinf.
        destruct (Hb3 Hinf) as [Hf3 Hs3].
        rewrite (attempts_left_step retries a Hinf Ele).
        change (ESleep pauseMs :: l3) with ([ESleep pauseMs] ++ l3).
        rewrite !fetch_count_app, !sleep_count_app, Hs1.
        change (fetch_count [ESleep pauseMs]) with 0%nat.
        change (sleep_count [ESleep pauseMs]) with 1%nat. lia.
      - exists (l1 ++ l3).
        split; [now rewrite <- !app_assoc|].
        split; [apply Forall_app; now split|].
        split; [discriminate|]. intros Hinf.
        destruct (Hb3 Hinf) as [Hf3 Hs3].
        rewrite (attempts_left_step retries a Hinf Ele).
        rewrite !fetch_count_app, !sleep_count_app, Hs1. lia. }
    destruct c1 as [res|e].
    + destruct (is_2xx (status res)); [|now apply Hnext in H].
      inversion H; subst. exists l1.
      split; [reflexivity|]. split; [exact Hall1|]. split; [discriminate|].
      intros Hinf. rewrite (attempts_left_step retries a Hinf Ele), Hs1. lia.
    + now apply Hnext in H.
  - inversion H; subst. exists []. rewrite app_nil_r.
    split; [reflexivity|]. split; [apply Forall_nil|].
    split; [reflexivity|]. intros _. unfold fetch_count, sleep_count. simpl. lia.
Qed.

(** X1: whatever the downstream endpoint does, one call of
    [postWithRetry] with a retry count other than [+Infinity] adds to
    the log at most [floor(retries) + 1] requests (none when [retries] is
    negative or NaN) and at most as many pauses; every request it adds
    is the encoded [formObj] sent to [apiUrl] with the headers of
    [authHeader], and every pause lasts [pauseMs]. *)
Theorem postWithRetry_attempts_bounded (fuel : nat)
  (apiUrl formObj authHeader : value) (retries pauseMs : number)
  (w w' : world) (c : completion value) :
  postWithRetry fuel apiUrl formObj authHeader retries pauseMs w = Some (c, w') ->
  retries <> Inf false ->
  exists log,
    w' = w ++ log /\
    Forall (attempt_event apiUrl formObj authHeader pauseMs) log /\
    (fetch_count log <= attempts_bound retries)%nat /\
    (sleep_count log <= attempts_bound retries)%nat.
Proof.
  intros H Hinf. unfold postWithRetry in H.
  destruct (postWithRetry_loop_log _ _ _ _ _ _ _ _ _ _ _ H)
    as [log [-> [Hall [_ Hb]]]].
  exists log. split; [reflexivity|]. split; [exact Hall|].
  destruct (Hb Hinf) as [Hf Hs].
  assert (attempts_left retries 0 = attempts_bound retries) as <-
    by (destruct retries; simpl; try reflexivity; now rewrite Z.sub_0_r).
  now split.
Qed.

Lemma is_2xx_range (st : Z) : is_2xx st = true <-> (200 <= st < 300)%Z.
Proof.
  unfold is_2xx. rewrite andb_true_iff, Z.leb_le, Z.ltb_lt. reflexivity.
Qed.

(** The value a run of the retry loop returns. *)
Lemma postWithRetry_loop_result (apiUrl formObj authHeader : value)
  (retries pauseMs : number) (fuel : nat) :
  forall (a : Z) (last : option send_outcome) (w w' : world) (v : value),
  postWithRetry_loop fuel apiUrl formObj authHeader retries pauseMs a last w
    = Some (Normal v, w') ->
  match last with None => True | Some o => is_2xx (status o) = false end ->
  (exists k st bd,
     v = VObj [("ok", VBool true); ("attempt", num_of_Z k);
               ("status", num_of_Z st); ("body", bd)] /\
     (a <= k)%Z /\ Z_le_num k retries = true /\ is_2xx st = true) \/
  (exists last',
     v = VObj (("ok", VBool false) :: spread_last last') /\
     match last' with
     | None => last = None /\ Z_le_num a retries = false
     | Some o => is_2xx (status o) = false
     end).
Proof.
  induction fuel as [|fuel IH]; intros a last w w' v H Hlast; [discriminate H|].
  simpl in H. destruct (Z_le_num a retries) eqn:Ele.
  - unfold bind at 1 in H. unfold try_catch in H.
    destruct (postOnce apiUrl formObj authHeader w) as [[c1 w1]|];
      [|discriminate H].
    assert (Hnext : forall o,
      is_2xx (status o) = false ->
      ((if Z_lt_num a retries then sleep pauseMs else ret tt) ;;;
       postWithRetry_loop fuel apiUrl formObj authHeader retries pauseMs
         (a + 1) (Some o)) w1 = Some (Normal v, w') ->
      (exists k st bd,
         v = VObj [("ok", VBool true); ("attempt", num_of_Z k);
                   ("status", num_of_Z st); ("body", bd)] /\
         (a <= k)%Z /\ Z_le_num k retries = true /\ is_2xx st = true) \/
      (exists last',
         v = VObj (("ok", VBool false) :: spread_last last') /\
         match last' with
         | None => last = None /\ true = false
         | Some o' => is_2xx (status o') = false
         end)).
    { intros o Ho Hrun. unfold bind in Hrun.
      assert (Hloop : exists w2,
        postWithRetry_loop fuel apiUrl formObj authHeader retries pauseMs
          (a + 1) (Some o) w2 = Some (Normal v, w'))
        by (destruct (Z_lt_num a retries); simpl in Hrun; eauto).
      destruct Hloop as [w2 Hloop].
      destruct (IH _ _ _ _ _ Hloop Ho)
        as [[k [st [bd [Hv [Hk [Hle H2]]]]]]|[last' [Hv Hl]]].
      - left. exists k, st, bd. repeat split; try assumption. lia.
      - right. exists last'. split; [exact Hv|].
        destruct last' as [o'|]; [exact Hl|]. destruct Hl as [Hl _].
        discriminate Hl. }
    destruct c1 as [res|e].
    + destruct (is_2xx (status res)) eqn:E2; [|now apply (Hnext res E2)].
      inversion H; subst. left.
      exists a, (status res), (body res). repeat split; try assumption. lia.
    + now apply (Hnext {| status := 0; body := VObj [("error", VStr e)] |}).
  - inversion H; subst. right. exists last. split; [reflexivity|].
    destruct last as [o|]; [exact Hlast|now split].
Qed.

(** X2: what [postWithRetry] returns.  It never throws, and its value
    is one of: [{ok: true, attempt: k, status, body}] with
    [0 <= k <= retries] and a status in [200,300); the bare [{ok: false}]
    when not even the first attempt is allowed, the log being then
    unchanged; or [{ok: false, status, body}] with a status outside
    [200,300) (0 for a caught exception). *)
Theorem postWithRetry_result_shape (fuel : nat)
  (apiUrl formObj authHeader : value) (retries pauseMs : number)
  (w w' : world) (c : completion value) :
  postWithRetry fuel apiUrl formObj authHeader retries pauseMs w = Some (c, w') ->
  exists v,
    c = Normal v /\
    ((exists k st bd,
        v = VObj [("ok", VBool true); ("attempt", num_of_Z k);
                  ("status", num_of_Z st); ("body", bd)] /\
        (0 <= k)%Z /\ Z_le_num k retries = true /\ (200 <= st < 300)%Z) \/
     (v = VObj [("ok", VBool false)] /\
      Z_le_num 0 retries = false /\ w' = w) \/
     (exists st bd,
        v = VObj [("ok", VBool false); ("status", num_of_Z st); ("body", bd)] /\
        ~ (200 <= st < 300)%Z)).
Proof.
  intros H.
  destruct (postWithRetry_loop_never_throws _ _ _ _ _ _ _ _ _ _ _ H) as [v ->].
  exists v. split; [reflexivity|]. unfold postWithRetry in H.
  destruct (postWithRetry_loop_result _ _ _ _ _ _ _ _ _ _ _ H I)
    as [[k [st [bd [Hv [Hk [Hle H2]]]]]]|[last' [Hv Hl]]].
  - left. exists k, st, bd. repeat split; try assumption; now apply is_2xx_range.
  - destruct last' as [o|].
    + right. right. exists (status o), (body o). split; [exact Hv|].
      intros Hr. apply is_2xx_range in Hr. congruence.
    + right. left. destruct Hl as [_ Hle]. split; [exact Hv|]. split; [exact Hle|].
      destruct (postWithRetry_loop_log _ _ _ _ _ _ _ _ _ _ _ H)
        as [log [-> [_ [Hnil _]]]].
      rewrite (Hnil Hle). apply app_nil_r.
Qed.

Lemma postOnce_encoder_throws (apiUrl formObj authHeader : value) (e : string)
  (w : world) :
  toFormBody formObj = Throw e ->
  postOnce apiUrl formObj authHeader w = Some (Throw e, w).
Proof.
  intros H. unfold postOnce, bind, lift. now rewrite H.
Qed.

Lemma loop_encoder_throws (apiUrl formObj authHeader : value)
  (pauseMs : number) (e : string) (r : Z) :
  toFormBody formObj = Throw e ->
  forall (n : nat) (fuel : nat) (a : Z) (last : option send_outcome) (w : world),
  Z.of_nat n = (r + 1 - a)%Z ->
  (n < fuel)%nat ->
  postWithRetry_loop fuel apiUrl formObj authHeader (Fin (inject_Z r)) pauseMs
    a last w =
  Some (Normal (VObj (("ok", VBool false) ::
                      spread_last
                        match n with
                        | O => last
                        | S _ => Some {| status := 0;
                                         body := VObj [("error", VStr e)] |}
                        end)),
        w ++ repeat (ESleep pauseMs) (n - 1)).
Proof.
  intros Henc. induction n as [|n IH]; intros fuel a last w Hn Hfuel.
  - destruct fuel as [|fuel]; [lia|]. simpl repeat. rewrite app_nil_r.
    apply loop_exit. rewrite Z_le_num_int. apply Z.leb_gt. lia.
  - destruct fuel as [|fuel]; [lia|]. cbn [postWithRetry_loop].
    rewrite Z_le_num_int.
    replace (a <=? r)%Z with true by (symmetry; apply Z.leb_le; lia).
    unfold bind at 1. unfold try_catch.
    rewrite (postOnce_encoder_throws _ _ _ e w Henc).
    unfold bind. rewrite Z_lt_num_int.
    destruct n as [|n].
    + replace (a <? r)%Z with false by (symmetry; apply Z.ltb_ge; lia).
      simpl. rewrite (IH fuel (a + 1)%Z _ w) by lia. reflexivity.
    + replace (a <? r)%Z with true by (symmetry; apply Z.ltb_lt; lia).
      simpl. rewrite (IH fuel (a + 1)%Z _ (w ++ [ESleep pauseMs])) by lia.
      simpl. rewrite Nat.sub_0_r, <- app_assoc. reflexivity.
Qed.

(** X3: when the payload cannot be encoded ([String] throws on one of
    its values), [postWithRetry] with [retries = r >= 0] sends nothing at
    all, yet goes through all [r + 1] attempts, pausing [r] times, and
    returns [{ok: false, status: 0, body: {error}}]. *)
Theorem postWithRetry_encoding_failure (fuel : nat)
  (apiUrl formObj authHeader : value) (pauseMs : number) (e : string)
  (r : Z) (w : world) :
  toFormBody formObj = Throw e ->
  (0 <= r)%Z ->
  (Z.to_nat r + 1 < fuel)%nat ->
  postWithRetry fuel apiUrl formObj authHeader (Fin (inject_Z r)) pauseMs w =
    Some (Normal (VObj [("ok", VBool false); ("status", num_of_Z 0);
                        ("body", VObj [("error", VStr e)])]),
          w ++ repeat (ESleep pauseMs) (Z.to_nat r)) /\
  fetch_count (w ++ repeat (ESleep pauseMs) (Z.to_nat r)) = fetch_count w.
Proof.
  intros Henc Hr Hfuel. split.
  - unfold postWithRetry.
    rewrite (loop_encoder_throws apiUrl formObj authHeader pauseMs e r Henc
               (S (Z.to_nat r))) by lia.
    simpl. now rewrite Nat.sub_0_r.
  - rewrite fetch_count_app.
    assert (Hnone : forall n, fetch_count (repeat (ESleep pauseMs) n) = 0%nat)
      by (intros n; induction n as [|n IHn]; [reflexivity|exact IHn]).
    rewrite Hnone. lia.
Qed.

(** X4: with [retries = +Infinity] (a value only the process default
    can take) and a downstream endpoint that never answers with a status
    in [200,300), [postWithRetry] never returns: no amount of fuel is
    enough. *)
Theorem postWithRetry_unbounded_retries_diverge (fuel : nat)
  (apiUrl formObj authHeader : value) (pauseMs : number) (w : world) :
  (forall n r, succeeded (downstream n r) = false) ->
  postWithRetry fuel apiUrl formObj authHeader (Inf false) pauseMs w = None.
Proof.
  intros Hfail. unfold postWithRetry.
  generalize 0%Z as a. generalize (@None send_outcome) as last. revert w.
  induction fuel as [|fuel IH]; intros w last a; [reflexivity|].
  simpl. unfold bind at 1. unfold try_catch.
  destruct (postOnce apiUrl formObj authHeader w) as [[c1 w1]|] eqn:Eonce;
    [|reflexivity].
  destruct c1 as [res|e].
  - assert (is_2xx (status res) = false) as ->.
    { apply postOnce_inv in Eonce.
      destruct Eonce as [[e [_ [Hc _]]]|[sp [_ [_ [text [Hd _]]]]]];
        [discriminate Hc|].
      specialize (Hfail (fetch_count w) (post_request apiUrl authHeader sp)).
      rewrite Hd in Hfail. exact Hfail. }
    unfold bind. simpl. apply IH.
  - unfold bind. simpl. apply IH.
Qed.

(** *** A retry count that is not an integer *)

Lemma Z_le_num_fin (a : Z) (q : Q) : Z_le_num a (Fin q) = (a <=? Qfloor q)%Z.
Proof.
  destruct (a <=? Qfloor q)%Z eqn:E.
  - apply Z.leb_le in E. simpl. apply Qle_bool_iff.
    apply Qle_trans with (inject_Z (Qfloor q)).
    + rewrite Zle_Qle in E. exact E.
    + apply Qfloor_le.
  - apply Z.leb_gt in E.
    destruct (Z_le_num a (Fin q)) eqn:E'; [|reflexivity].
    apply Z_le_num_floor in E'. lia.
Qed.

Lemma Z_lt_num_below (a : Z) (q : Q) :
  (a < Qfloor q)%Z -> Z_lt_num a (Fin q) = true.
Proof.
  intros Ha. simpl. destruct (Qle_bool q (inject_Z a)) eqn:E; [|reflexivity].
  apply Qle_bool_iff in E. apply Qfloor_resp_le in E.
  rewrite Qfloor_Z in E. lia.
Qed.

Lemma Z_lt_num_floor (q : Q) :
  Z_lt_num (Qfloor q) (Fin q) = negb (Qeq_bool q (inject_Z (Qfloor q))).
Proof.
  simpl. f_equal.
  destruct (Qeq_bool q (inject_Z (Qfloor q))) eqn:E.
  - apply Qeq_bool_iff in E. apply Qle_bool_iff. rewrite <- E. apply Qle_refl.
  - destruct (Qle_bool q (inject_Z (Qfloor q))) eqn:E'; [|reflexivity].
    apply Qle_bool_iff in E'.
    assert (q == inject_Z (Qfloor q))%Q as Heq
      by (apply Qle_antisym; [exact E'|apply Qfloor_le]).
    apply Qeq_bool_iff in Heq. congruence.
Qed.

Lemma loop_paced_prefix_fin (apiUrl formObj authHeader : value)
  (pauseMs : number) (sp : list (string * string)) (q : Q) (k : nat) :
  toFormBody formObj = Normal sp ->
  forall (fuel : nat) (a : Z) (last : option send_outcome) (w : world),
  (a + Z.of_nat k <= Qfloor q)%Z ->
  (forall i, (i < k)%nat ->
     succeeded (downstream (fetch_count w + i)
                  (post_request apiUrl authHeader sp)) = false) ->
  postWithRetry_loop (k + fuel) apiUrl formObj authHeader (Fin q) pauseMs
    a last w =
  postWithRetry_loop fuel apiUrl formObj authHeader (Fin q) pauseMs
    (a + Z.of_nat k)
    (match k with
     | O => last
     | S k' => Some (attempt_outcome
                       (downstream (fetch_count w + k')
                          (post_request apiUrl authHeader sp)))
     end)
    (w ++ paced_attempts (post_request apiUrl authHeader sp) pauseMs k).
Proof.
  intros Hsp. set (rq := post_request apiUrl authHeader sp).
  induction k as [|k IH]; intros fuel a last w Hk Hfail.
  - simpl. now rewrite Z.add_0_r, app_nil_r.
  - change (S k + fuel)%nat with (S (k + fuel)).
    rewrite (loop_step_fail apiUrl formObj authHeader pauseMs sp Hsp); fold rq.
    + rewrite Z_lt_num_below by lia.
      rewrite IH.
      * replace (a + 1 + Z.of_nat k)%Z with (a + Z.of_nat (S k))%Z by lia.
        rewrite <- app_assoc. simpl app.
        f_equal. destruct k as [|k'].
        -- now rewrite Nat.add_0_r.
        -- rewrite fetch_count_app. simpl. do 3 f_equal.
           change (fetch_count [EFetch rq; ESleep pauseMs]) with 1%nat. lia.
      * lia.
      * intros i Hi. rewrite fetch_count_app.
        change (fetch_count [EFetch rq; ESleep pauseMs]) with 1%nat.
        replace (fetch_count w + 1 + i)%nat with (fetch_count w + S i)%nat by lia.
        apply Hfail. lia.
    + rewrite Z_le_num_fin. apply Z.leb_le. lia.
    + specialize (Hfail 0%nat). rewrite Nat.add_0_r in Hfail. apply Hfail. lia.
Qed.

(** X5: a finite [retries = q >= 0] need not be an integer (the handler
    only asks for a finite number).  When no attempt succeeds the
    controller makes [floor(q) + 1] attempts with a pause between them,
    and, exactly when [q] is not an integer, one more pause after the
    last attempt; it returns [{ok: false, status, body}] of the last
    attempt. *)
Theorem postWithRetry_fractional_retries (fuel : nat)
  (apiUrl formObj authHeader : value) (pauseMs : number)
  (sp : list (string * string)) (q : Q) (w : world) :
  toFormBody formObj = Normal sp ->
  (0 <= q)%Q ->
  (forall i, (i <= Z.to_nat (Qfloor q))%nat ->
     succeeded (downstream (fetch_count w + i)
                  (post_request apiUrl authHeader sp)) = false) ->
  (Z.to_nat (Qfloor q) + 1 < fuel)%nat ->
  postWithRetry fuel apiUrl formObj authHeader (Fin q) pauseMs w =
    Some (Normal (VObj (("ok", VBool false) ::
                        outcome_props
                          (attempt_outcome
                             (downstream (fetch_count w + Z.to_nat (Qfloor q))
                                (post_request apiUrl authHeader sp))))),
          w ++ paced_attempts (post_request apiUrl authHeader sp) pauseMs
                 (Z.to_nat (Qfloor q))
            ++ EFetch (post_request apiUrl authHeader sp)
            :: (if Qeq_bool q (inject_Z (Qfloor q)) then []
                else [ESleep pauseMs])).
Proof.
  intros Hsp Hq Hfail Hfuel.
  set (rq := post_request apiUrl authHeader sp) in *.
  assert (Hm : (0 <= Qfloor q)%Z).
  { apply Qfloor_resp_le in Hq. exact Hq. }
  set (k := Z.to_nat (Qfloor q)) in *.
  unfold postWithRetry.
  replace fuel with (k + S (S (fuel - k - 2)))%nat by lia.
  rewrite (loop_paced_prefix_fin apiUrl formObj authHeader pauseMs sp q k Hsp)
    by (try lia; intros i Hi; apply Hfail; lia).
  fold rq.
  rewrite (loop_step_fail apiUrl formObj authHeader pauseMs sp Hsp); fold rq.
  - replace (0 + Z.of_nat k)%Z with (Qfloor q) by lia.
    rewrite Z_lt_num_floor.
    rewrite (loop_exit apiUrl formObj authHeader pauseMs).
    + rewrite fetch_count_app, fetch_count_paced.
      destruct (Qeq_bool q (inject_Z (Qfloor q))); simpl negb; cbv iota;
        now rewrite <- app_assoc.
    + rewrite Z_le_num_fin. apply Z.leb_gt. lia.
  - rewrite Z_le_num_fin. apply Z.leb_le. lia.
  - rewrite fetch_count_app, fetch_count_paced. apply Hfail. lia.
Qed.

(** ** Further properties of the handler *)

(** The handler, case by case. *)
Lemma send_bulk_cases (fuel : nat) (req : request) (w : world) :
  send_bulk fuel req w =
  match resolve_apiUrl req with
  | Throw e => Some (internal_error e, w)
  | Normal u =>
      match resolve_authHeader req with
      | Throw e => Some (internal_error e, w)
      | Normal a =>
          if truthy a then
            match js_or (get (req_body req) "recipients") (VArr []) with
            | VArr rs =>
                if (length rs =? 0)%nat then Some (bad_recipients, w)
                else
                  match for_each (seq 0 (length rs))
                          (process_recipient fuel u a (resolved_base req)
                             (resolved_maxRetries req) (resolved_pauseMs req) rs)
                          empty_tally w with
                  | None => None
                  | Some (Normal t, w') => Some (report (length rs) t, w')
                  | Some (Throw e, w') => Some (internal_error e, w')
                  end
            | _ => Some (bad_recipients, w)
            end
          else Some (missing_auth, w)
      end
  end.
Proof.
  unfold send_bulk, send_bulk_try, bind, lift.
  destruct (resolve_apiUrl req) as [u|e]; [|reflexivity].
  destruct (resolve_authHeader req) as [a|e]; [|reflexivity].
  destruct (truthy a); cbv beta iota delta [negb]; [|reflexivity].
  destruct (js_or (get (req_body req) "recipients") (VArr []));
    try reflexivity.
  destruct (length items =? 0)%nat; [reflexivity|].
  fold (resolved_base req). fold (resolved_maxRetries req).
  fold (resolved_pauseMs req). fold empty_tally.
  destruct (for_each _ _ _ w) as [[[t|e] w']|]; reflexivity.
Qed.

(** X6: once the URL and the authentication are resolved, a
    [recipients] field that is absent, not an array, or an empty array is
    answered with the 400 "recipients must be a non-empty array", and
    nothing is sent. *)
Theorem send_bulk_bad_recipients (fuel : nat) (req : request) (u a : value)
  (w : world) :
  resolve_apiUrl req = Normal u ->
  resolve_authHeader req = Normal a ->
  truthy a = true ->
  (forall rs, get (req_body req) "recipients" = VArr rs -> rs = []) ->
  send_bulk fuel req w =
    Some ({| code := 400;
             json := VObj [("error",
                            VStr "recipients must be a non-empty array")] |}, w).
Proof.
  intros Hu Ha Hta Hrs. rewrite send_bulk_cases, Hu, Ha, Hta.
  unfold js_or.
  destruct (get (req_body req) "recipients") as [| |b|n|s|xs|ps] eqn:Er;
    simpl truthy; cbv iota; try reflexivity.
  - destruct b; reflexivity.
  - destruct n as [q|b|]; [destruct (negb (Qeq_bool q 0))| |]; reflexivity.
  - destruct (negb (String.eqb s "")); reflexivity.
  - now rewrite (Hrs xs eq_refl).
Qed.

Lemma call_trim_throws (v : value) :
  (forall s, v <> VStr s) -> exists e, call_trim v = Throw e.
Proof.
  intros Hv. destruct v as [| |b|n|s|xs|ps]; simpl; eauto.
  now destruct (Hv s).
Qed.

(** X7: a truthy [apiUrl] field that is not a string makes [.trim()]
    throw, and so does a truthy non-string [authHeader] field when the
    [Authorization] header is absent or blank; the handler answers 500
    with the error text, and nothing is sent. *)
Theorem send_bulk_type_error (fuel : nat) (req : request) (w : world) :
  (truthy (get (req_body req) "apiUrl") = true ->
   (forall s, get (req_body req) "apiUrl" <> VStr s) ->
   exists e,
     send_bulk fuel req w =
       Some ({| code := 500; json := VObj [("error", VStr e)] |}, w)) /\
  (blank_header (authorization req) ->
   truthy (get (req_body req) "authHeader") = true ->
   (forall s, get (req_body req) "authHeader" <> VStr s) ->
   exists e,
     send_bulk fuel req w =
       Some ({| code := 500; json := VObj [("error", VStr e)] |}, w)).
Proof.
  split.
  - intros Ht Hs. rewrite send_bulk_cases.
    unfold resolve_apiUrl, js_or. rewrite Ht.
    destruct (call_trim_throws _ Hs) as [e ->].
    exists e. reflexivity.
  - intros Hh Ht Hs. rewrite send_bulk_cases.
    destruct (resolve_apiUrl req) as [u|e]; [|exists e; reflexivity].
    unfold resolve_authHeader.
    destruct (and_trim_blank_header _ Hh) as [x [-> Hx]].
    unfold cbind at 1. rewrite Hx. unfold js_and. rewrite Ht.
    destruct (call_trim_throws _ Hs) as [e ->].
    exists e. reflexivity.
Qed.

Lemma for_each_never_throws (fuel : nat) (apiUrl authHeader base : value)
  (maxRetries pauseMs : number) (rs : list value) (n i : nat) (t : tally)
  (w w' : world) (c : completion tally) :
  for_each (seq i n)
    (process_recipient fuel apiUrl authHeader base maxRetries pauseMs rs) t w
    = Some (c, w') ->
  exists t', c = Normal t'.
Proof.
  intros H.
  destruct (for_each_seq_invariant _ _ _ _ _ _ _ _ _ _ _ _ _ H) as [t' [-> _]].
  eauto.
Qed.

(** X8: the handler answers 200, 400 or 500.  It answers 500 exactly
    when resolving the URL or the authentication throws; what happens to
    the recipients never turns into a 500.  Every answer other than 200
    is given before anything is sent. *)
Theorem send_bulk_status_codes (fuel : nat) (req : request) (w w' : world)
  (resp : response) :
  send_bulk fuel req w = Some (resp, w') ->
  (code resp = 200%Z \/ code resp = 400%Z \/ code resp = 500%Z) /\
  (code resp = 500%Z <->
   (exists e, resolve_apiUrl req = Throw e) \/
   (exists e, resolve_authHeader req = Throw e)) /\
  (code resp <> 200%Z -> w' = w).
Proof.
  rewrite send_bulk_cases. intros H.
  destruct (resolve_apiUrl req) as [u|e].
  2:{ inversion H; subst. simpl.
      split; [auto|]. split; [|reflexivity]. split; eauto. }
  destruct (resolve_authHeader req) as [a|e].
  2:{ inversion H; subst. simpl.
      split; [auto|]. split; [|reflexivity]. split; eauto. }
  assert (Hno : (exists e, @Normal value u = Throw e) \/
                (exists e, @Normal value a = Throw e) -> False)
    by (intros [[e He]|[e He]]; discriminate He).
  assert (H400 : forall r, code r = 400%Z -> Some (r, w) = Some (resp, w') ->
    (code resp = 200%Z \/ code resp = 400%Z \/ code resp = 500%Z) /\
    (code resp = 500%Z <->
     (exists e, @Normal value u = Throw e) \/
     (exists e, @Normal value a = Throw e)) /\
    (code resp <> 200%Z -> w' = w)).
  { intros r Hr Heq. inversion Heq; subst.
    split; [auto|]. split; [|reflexivity].
    split; [intros H5; rewrite Hr in H5; discriminate H5|intros F; now apply Hno in F]. }
  destruct (truthy a); [|now apply (H400 missing_auth)].
  destruct (js_or (get (req_body req) "recipients") (VArr []))
    as [| |b|n|s|rs|ps]; try (now apply (H400 bad_recipients)).
  destruct (length rs =? 0)%nat; [now apply (H400 bad_recipients)|].
  destruct (for_each _ _ _ w) as [[c w1]|] eqn:Erun; [|discriminate H].
  destruct (for_each_never_throws _ _ _ _ _ _ _ _ _ _ _ _ _ Erun) as [t ->].
  inversion H; subst. simpl.
  split; [auto|]. split; [|intros F; now destruct F].
  split; [discriminate|intros F; now apply Hno in F].
Qed.

(** *** The report, entry by entry *)

Lemma send_bulk_valid (fuel : nat) (req : request) (rs : list value)
  (u a : value) (w : world) :
  resolve_apiUrl req = Normal u ->
  resolve_authHeader req = Normal a ->
  truthy a = true ->
  get (req_body req) "recipients" = VArr rs ->
  rs <> [] ->
  send_bulk fuel req w =
  match for_each (seq 0 (length rs))
          (process_recipient fuel u a (resolved_base req)
             (resolved_maxRetries req) (resolved_pauseMs req) rs)
          empty_tally w with
  | None => None
  | Some (Normal t, w') => Some (report (length rs) t, w')
  | Some (Throw e, w') => Some (internal_error e, w')
  end.
Proof.
  intros Hu Ha Hta Hrs Hne. rewrite send_bulk_cases, Hu, Ha, Hta, Hrs.
  change (js_or (VArr rs) (VArr [])) with (VArr rs). cbv beta iota.
  destruct rs as [|r rs']; [contradiction|]. reflexivity.
Qed.

Lemma process_recipient_record (fuel : nat) (apiUrl authHeader base : value)
  (maxRetries pauseMs : number) (rs : list value) (idx : nat) (t : tally)
  (w w' : world) (c : completion tally) :
  process_recipient fuel apiUrl authHeader base maxRetries pauseMs rs idx t w
    = Some (c, w') ->
  exists x,
    c = Normal {| results := results t ++ [x];
                  success := if is_ok x then S (success t) else success t;
                  failed := if is_ok x then failed t else S (failed t) |} /\
    result_for rs idx x.
Proof.
  intros H. unfold result_for.
  destruct (truthy (phone_of (recipient_at rs idx))) eqn:Hp.
  - rewrite process_recipient_dispatch in H by exact Hp.
    destruct (postWithRetry fuel apiUrl _ authHeader maxRetries pauseMs w)
      as [[c1 w1]|] eqn:Erun; [|discriminate H].
    destruct (postWithRetry_loop_never_throws _ _ _ _ _ _ _ _ _ _ _ Erun)
      as [out ->].
    inversion H; subst. unfold postWithRetry in Erun.
    exists (recipient_result idx (name_of (recipient_at rs idx))
              (phone_of (recipient_at rs idx)) (get out "ok")
              (get out "status") (get out "body")).
    split.
    { unfold record_outcome, is_ok.
      change (get (recipient_result idx (name_of (recipient_at rs idx))
                     (phone_of (recipient_at rs idx)) (get out "ok")
                     (get out "status") (get out "body")) "ok")
        with (get out "ok").
      destruct (truthy (get out "ok")); reflexivity. }
    split; [reflexivity|]. split; [reflexivity|]. split; [reflexivity|].
    change (get (recipient_result idx (name_of (recipient_at rs idx))
                   (phone_of (recipient_at rs idx)) (get out "ok")
                   (get out "status") (get out "body")) "ok")
      with (get out "ok").
    change (get (recipient_result idx (name_of (recipient_at rs idx))
                   (phone_of (recipient_at rs idx)) (get out "ok")
                   (get out "status") (get out "body")) "status")
      with (get out "status").
    destruct (postWithRetry_loop_result _ _ _ _ _ _ _ _ _ _ _ Erun I)
      as [[k [st [bd [-> [_ [_ H2]]]]]]|[last' [-> _]]].
    + split; [exists true; reflexivity|]. split; [discriminate|].
      intros _. split; [reflexivity|]. exists st.
      split; [reflexivity|now apply is_2xx_range].
    + split; [exists false; reflexivity|]. split; [discriminate|].
      simpl. discriminate.
  - rewrite process_recipient_missing in H by exact Hp.
    inversion H; subst.
    exists (missing_phone idx (name_of (recipient_at rs idx))
              (phone_of (recipient_at rs idx))).
    split; [reflexivity|].
    split; [reflexivity|]. split; [reflexivity|]. split; [reflexivity|].
    split; [exists false; reflexivity|]. split; [intros _; repeat split|].
    simpl. discriminate.
Qed.

Lemma for_each_records (fuel : nat) (apiUrl authHeader base : value)
  (maxRetries pauseMs : number) (rs : list value) (n : nat) :
  forall (i : nat) (t : tally) (w w' : world) (c : completion tally),
  for_each (seq i n)
    (process_recipient fuel apiUrl authHeader base maxRetries pauseMs rs) t w
    = Some (c, w') ->
  exists t' added,
    c = Normal t' /\
    results t' = results t ++ added /\
    Forall2 (result_for rs) (seq i n) added /\
    success t' = (success t + length (filter is_ok added))%nat /\
    failed t' = (failed t + length (filter (fun x => negb (is_ok x)) added))%nat.
Proof.
  induction n as [|n IH]; intros i t w w' c H.
  - simpl in H. inversion H; subst. exists t, [].
    split; [reflexivity|]. split; [now rewrite app_nil_r|].
    split; [constructor|]. simpl. split; lia.
  - simpl in H. unfold bind at 1 in H.
    destruct (process_recipient fuel apiUrl authHeader base maxRetries pauseMs
                rs i t w) as [[c1 w1]|] eqn:Estep; [|discriminate H].
    destruct (process_recipient_record _ _ _ _ _ _ _ _ _ _ _ _ Estep)
      as [x [-> Hx]].
    destruct (IH _ _ _ _ _ H) as [t' [added [-> [Hres [Hall [Hs Hf]]]]]].
    exists t', (x :: added). simpl in Hres, Hs, Hf.
    split; [reflexivity|]. split; [now rewrite Hres, <- app_assoc|].
    split; [now constructor|].
    simpl. destruct (is_ok x); simpl; split; lia.
Qed.

(** X9: in the report of a validated request the counters are those of
    the results: [summary.success] is the number of results whose [ok]
    is true and [summary.failed] the number of the others. *)
Theorem send_bulk_summary_counts (fuel : nat) (req : request)
  (rs : list value) (u a : value) (w w' : world) (resp : response) :
  resolve_apiUrl req = Normal u ->
  resolve_authHeader req = Normal a ->
  truthy a = true ->
  get (req_body req) "recipients" = VArr rs ->
  rs <> [] ->
  send_bulk fuel req w = Some (resp, w') ->
  exists t,
    resp = report (length rs) t /\
    success t = length (filter is_ok (results t)) /\
    failed t = length (filter (fun x => negb (is_ok x)) (results t)).
Proof.
  intros Hu Ha Hta Hrs Hne H.
  rewrite (send_bulk_valid fuel req rs u a w Hu Ha Hta Hrs Hne) in H.
  destruct (for_each _ _ _ w) as [[c w1]|] eqn:Erun; [|discriminate H].
  destruct (for_each_records _ _ _ _ _ _ _ _ _ _ _ _ _ Erun)
    as [t [added [-> [Hres [_ [Hs Hf]]]]]].
  inversion H; subst. exists t. simpl in Hres, Hs, Hf. rewrite Hres.
  now split.
Qed.

(** X10: the i-th result of the report belongs to the i-th recipient:
    it has index [i + 1], the recipient's [name] (or [""]) and [phone],
    and a boolean [ok]; it is the 400 "Missing phone" when the phone is
    missing or empty; and when [ok] is true the recipient has a phone
    and [status] lies in [200,300). *)
Theorem send_bulk_results_match_recipients (fuel : nat) (req : request)
  (rs : list value) (u a : value) (w w' : world) (resp : response) :
  resolve_apiUrl req = Normal u ->
  resolve_authHeader req = Normal a ->
  truthy a = true ->
  get (req_body req) "recipients" = VArr rs ->
  rs <> [] ->
  send_bulk fuel req w = Some (resp, w') ->
  exists t,
    resp = report (length rs) t /\
    Forall2 (result_for rs) (seq 0 (length rs)) (results t).
Proof.
  intros Hu Ha Hta Hrs Hne H.
  rewrite (send_bulk_valid fuel req rs u a w Hu Ha Hta Hrs Hne) in H.
  destruct (for_each _ _ _ w) as [[c w1]|] eqn:Erun; [|discriminate H].
  destruct (for_each_records _ _ _ _ _ _ _ _ _ _ _ _ _ Erun)
    as [t [added [-> [Hres [Hall _]]]]].
  inversion H; subst. exists t. simpl in Hres. rewrite Hres.
  now split.
Qed.

(** *** The log of the handler *)

Lemma attempts_left_0 (retries : number) :
  attempts_left retries 0 = attempts_bound retries.
Proof.
  destruct retries; simpl; try reflexivity. now rewrite Z.sub_0_r.
Qed.

Lemma process_recipient_log (fuel : nat) (apiUrl authHeader base : value)
  (maxRetries pauseMs : number) (rs : list value) (idx : nat) (t : tally)
  (w w' : world) (c : completion tally) :
  process_recipient fuel apiUrl authHeader base maxRetries pauseMs rs idx t w
    = Some (c, w') ->
  (idx < length rs)%nat ->
  exists log,
    w' = w ++ log /\
    Forall (dispatch_event apiUrl authHeader base pauseMs rs) log /\
    (maxRetries <> Inf false ->
     (fetch_count log <=
        length (dispatched rs idx 1) * attempts_bound maxRetries)%nat /\
     (sleep_count log <=
        length (dispatched rs idx 1) * S (attempts_bound maxRetries))%nat).
Proof.
  intros H Hidx. unfold dispatched. simpl seq. simpl filter.
  destruct (truthy (phone_of (recipient_at rs idx))) eqn:Hp.
  - rewrite process_recipient_dispatch in H by exact Hp.
    destruct (postWithRetry fuel apiUrl _ authHeader maxRetries pauseMs w)
      as [[c1 w1]|] eqn:Erun; [|discriminate H].
    destruct (postWithRetry_loop_never_throws _ _ _ _ _ _ _ _ _ _ _ Erun)
      as [out ->].
    inversion H; subst. unfold postWithRetry in Erun.
    destruct (postWithRetry_loop_log _ _ _ _ _ _ _ _ _ _ _ Erun)
      as [log [-> [Hall [_ Hb]]]].
    exists (log ++ [ESleep pauseMs]). split; [now rewrite <- app_assoc|].
    split.
    + apply Forall_app. split; [|constructor; [reflexivity|constructor]].
      eapply Forall_impl; [|exact Hall].
      intros [r|ms] He; [|exact He].
      destruct He as [sp [Hsp ->]]. exists idx, sp. now repeat split.
    + intros Hinf. destruct (Hb Hinf) as [Hf Hs].
      rewrite attempts_left_0 in Hf, Hs.
      rewrite fetch_count_app, sleep_count_app.
      change (fetch_count [ESleep pauseMs]) with 0%nat.
      change (sleep_count [ESleep pauseMs]) with 1%nat. simpl length. lia.
  - rewrite process_recipient_missing in H by exact Hp.
    inversion H; subst. exists []. rewrite app_nil_r.
    split; [reflexivity|]. split; [constructor|].
    intros _. unfold fetch_count, sleep_count. simpl. lia.
Qed.

Lemma dispatched_step (rs : list value) (i n : nat) :
  length (dispatched rs i (S n)) =
  (length (dispatched rs i 1) + length (dispatched rs (S i) n))%nat.
Proof.
  unfold dispatched. simpl seq. simpl filter.
  destruct (truthy (phone_of (recipient_at rs i))); reflexivity.
Qed.

Lemma for_each_log (fuel : nat) (apiUrl authHeader base : value)
  (maxRetries pauseMs : number) (rs : list value) (n : nat) :
  forall (i : nat) (t : tally) (w w' : world) (c : completion tally),
  (i + n <= length rs)%nat ->
  for_each (seq i n)
    (process_recipient fuel apiUrl authHeader base maxRetries pauseMs rs) t w
    = Some (c, w') ->
  exists log,
    w' = w ++ log /\
    Forall (dispatch_event apiUrl authHeader base pauseMs rs) log /\
    (maxRetries <> Inf false ->
     (fetch_count log <=
        length (dispatched rs i n) * attempts_bound maxRetries)%nat /\
     (sleep_count log <=
        length (dispatched rs i n) * S (attempts_bound maxRetries))%nat).
Proof.
  induction n as [|n IH]; intros i t w w' c Hin H.
  - simpl in H. inversion H; subst. exists []. rewrite app_nil_r.
    split; [reflexivity|]. split; [constructor|].
    intros _. unfold fetch_count, sleep_count. simpl. lia.
  - simpl in H. unfold bind at 1 in H.
    destruct (process_recipient fuel apiUrl authHeader base maxRetries pauseMs
                rs i t w) as [[c1 w1]|] eqn:Estep; [|discriminate H].
    destruct (process_recipient_log _ _ _ _ _ _ _ _ _ _ _ _ Estep)
      as [l1 [-> [Hall1 Hb1]]]; [lia|].
    destruct (process_recipient_step _ _ _ _ _ _ _ _ _ _ _ _ Estep)
      as [t1 [x [-> _]]].
    assert (Hin' : (S i + n <= length rs)%nat) by lia.
    destruct (IH _ _ _ _ _ Hin' H) as [l2 [-> [Hall2 Hb2]]].
    exists (l1 ++ l2). split; [now rewrite <- app_assoc|].
    split; [apply Forall_app; now split|].
    intros Hinf. destruct (Hb1 Hinf) as [Hf1 Hs1].
    destruct (Hb2 Hinf) as [Hf2 Hs2].
    rewrite fetch_count_app, sleep_count_app, dispatched_step. lia.
Qed.

(** X11: everything a validated request adds to the log is an attempt
    for one of its recipients that have a phone (the encoded payload of
    that recipient, sent to the resolved URL with the resolved
    [Authorization] header) or a pause of the resolved [pauseMs]. *)
Theorem send_bulk_requests (fuel : nat) (req : request) (rs : list value)
  (u a : value) (w w' : world) (resp : response) :
  resolve_apiUrl req = Normal u ->
  resolve_authHeader req = Normal a ->
  truthy a = true ->
  get (req_body req) "recipients" = VArr rs ->
  rs <> [] ->
  send_bulk fuel req w = Some (resp, w') ->
  exists log,
    w' = w ++ log /\
    Forall (dispatch_event u a (resolved_base req) (resolved_pauseMs req) rs)
      log.
Proof.
  intros Hu Ha Hta Hrs Hne H.
  rewrite (send_bulk_valid fuel req rs u a w Hu Ha Hta Hrs Hne) in H.
  destruct (for_each _ _ _ w) as [[c w1]|] eqn:Erun; [|discriminate H].
  assert (Hin : (0 + length rs <= length rs)%nat) by (simpl; lia).
  destruct (for_each_log _ _ _ _ _ _ _ _ _ _ _ _ _ Hin Erun)
    as [log [-> [Hall _]]].
  exists log. split; [|exact Hall].
  destruct c; inversion H; reflexivity.
Qed.

(** X12: the load a validated request puts on the downstream endpoint
    is bounded whatever the endpoint answers: with a retry count other
    than [+Infinity], at most [floor(retries) + 1] requests for each
    recipient that has a phone, none for the others, and at most one
    pause more than that for each. *)
Theorem send_bulk_load_bound (fuel : nat) (req : request) (rs : list value)
  (u a : value) (w w' : world) (resp : response) :
  resolve_apiUrl req = Normal u ->
  resolve_authHeader req = Normal a ->
  truthy a = true ->
  get (req_body req) "recipients" = VArr rs ->
  rs <> [] ->
  resolved_maxRetries req <> Inf false ->
  send_bulk fuel req w = Some (resp, w') ->
  (fetch_count w' <=
     fetch_count w +
     length (dispatched rs 0 (length rs)) *
     attempts_bound (resolved_maxRetries req))%nat /\
  (sleep_count w' <=
     sleep_count w +
     length (dispatched rs 0 (length rs)) *
     S (attempts_bound (resolved_maxRetries req)))%nat.
Proof.
  intros Hu Ha Hta Hrs Hne Hinf H.
  rewrite (send_bulk_valid fuel req rs u a w Hu Ha Hta Hrs Hne) in H.
  destruct (for_each _ _ _ w) as [[c w1]|] eqn:Erun; [|discriminate H].
  assert (Hin : (0 + length rs <= length rs)%nat) by (simpl; lia).
  destruct (for_each_log _ _ _ _ _ _ _ _ _ _ _ _ _ Hin Erun)
    as [log [-> [_ Hb]]].
  destruct (Hb Hinf) as [Hf Hs].
  assert (w' = w ++ log) as -> by (destruct c; inversion H; reflexivity).
  rewrite fetch_count_app, sleep_count_app. lia.
Qed.

Lemma for_each_no_attempts (fuel : nat) (apiUrl authHeader base : value)
  (maxRetries pauseMs : number) (rs : list value) (n : nat) :
  Z_le_num 0 maxRetries = false ->
  forall (i : nat) (t : tally) (w : world),
  exists t' added w',
    for_each (seq i n)
      (process_recipient (S fuel) apiUrl authHeader base maxRetries pauseMs rs)
      t w = Some (Normal t', w') /\
    results t' = results t ++ added /\
    length added = n /\
    Forall (fun x => get x "ok" = VBool false) added /\
    success t' = success t /\
    failed t' = (failed t + n)%nat /\
    fetch_count w' = fetch_count w.
Proof.
  intros Hle. induction n as [|n IH]; intros i t w.
  - exists t, [], w. simpl. rewrite app_nil_r.
    repeat split; try constructor; lia.
  - simpl for_each. unfold bind at 1.
    destruct (truthy (phone_of (recipient_at rs i))) eqn:Hp.
    + rewrite process_recipient_dispatch by exact Hp.
      unfold postWithRetry.
      rewrite (loop_exit apiUrl _ authHeader pauseMs) by exact Hle.
      match goal with
      | |- context [for_each _ _ ?t1 ?w1] =>
          destruct (IH (S i) t1 w1)
            as [t' [added [w' [-> [Hres [Hlen [Hall [Hs [Hf Hc]]]]]]]]]
      end.
      eexists t', (_ :: added), w'. split; [reflexivity|].
      simpl in Hres, Hs, Hf.
      split; [rewrite Hres, <- app_assoc; reflexivity|].
      split; [simpl; now rewrite Hlen|].
      split; [constructor; [reflexivity|exact Hall]|].
      split; [exact Hs|]. split; [lia|].
      rewrite Hc, fetch_count_app. unfold fetch_count at 2. simpl. lia.
    + rewrite process_recipient_missing by exact Hp.
      match goal with
      | |- context [for_each _ _ ?t1 ?w1] =>
          destruct (IH (S i) t1 w1)
            as [t' [added [w' [-> [Hres [Hlen [Hall [Hs [Hf Hc]]]]]]]]]
      end.
      eexists t', (_ :: added), w'. split; [reflexivity|].
      simpl in Hres, Hs, Hf.
      split; [rewrite Hres, <- app_assoc; reflexivity|].
      split; [simpl; now rewrite Hlen|].
      split; [constructor; [reflexivity|exact Hall]|].
      split; [exact Hs|]. split; [lia|exact Hc].
Qed.

(** X13: when the resolved retry count does not even allow the first
    attempt (it is negative, NaN or [-Infinity]; NaN is what an
    unparsable [MAX_RETRIES] gives), a validated request is still
    answered with a 200, but nothing is sent: every recipient is
    reported with [ok: false] and counted as failed. *)
Theorem send_bulk_no_attempts (fuel : nat) (req : request) (rs : list value)
  (u a : value) (w : world) :
  resolve_apiUrl req = Normal u ->
  resolve_authHeader req = Normal a ->
  truthy a = true ->
  get (req_body req) "recipients" = VArr rs ->
  rs <> [] ->
  Z_le_num 0 (resolved_maxRetries req) = false ->
  exists t w',
    send_bulk (S fuel) req w = Some (report (length rs) t, w') /\
    length (results t) = length rs /\
    Forall (fun x => get x "ok" = VBool false) (results t) /\
    success t = 0%nat /\
    failed t = length rs /\
    fetch_count w' = fetch_count w.
Proof.
  intros Hu Ha Hta Hrs Hne Hle.
  rewrite (send_bulk_valid (S fuel) req rs u a w Hu Ha Hta Hrs Hne).
  destruct (for_each_no_attempts fuel u a (resolved_base req)
              (resolved_maxRetries req) (resolved_pauseMs req) rs (length rs)
              Hle 0%nat empty_tally w)
    as [t [added [w' [-> [Hres [Hlen [Hall [Hs [Hf Hc]]]]]]]]].
  exists t, w'. simpl in Hres, Hs, Hf. rewrite Hres.
  repeat split; assumption.
Qed.

(** *** The payload of a recipient *)

Lemma set_prop_fresh (k : string) (v : value) (ps : list (string * value)) :
  lookup k ps = None -> set_prop k v ps = ps ++ [(k, v)].
Proof.
  induction ps as [|[k' v'] rest IH]; simpl; [reflexivity|].
  destruct (String.eqb k k'); [discriminate|].
  intros H. now rewrite IH.
Qed.

Lemma lookup_app_fresh (k k0 : string) (v : value) (ps : list (string * value)) :
  k0 <> k -> lookup k0 ps = None -> lookup k0 (ps ++ [(k, v)]) = None.
Proof.
  intros Hne. induction ps as [|[k' v'] rest IH]; simpl.
  - apply String.eqb_neq in Hne. now rewrite Hne.
  - destruct (String.eqb k0 k'); [discriminate|exact IH].
Qed.

Lemma fold_set_prop_fresh (ps : list (string * value)) :
  forall acc,
  NoDup (map fst ps) ->
  (forall k, In k (map fst ps) -> lookup k acc = None) ->
  fold_left (fun qs kv => set_prop (fst kv) (snd kv) qs) ps acc = acc ++ ps.
Proof.
  induction ps as [|[k v] rest IH]; intros acc Hnd Hfresh.
  - simpl. now rewrite app_nil_r.
  - simpl in *. inversion Hnd as [|? ? Hnotin Hnd']; subst.
    rewrite set_prop_fresh by (apply Hfresh; now left).
    rewrite IH.
    + now rewrite <- app_assoc.
    + exact Hnd'.
    + intros k0 Hin. apply lookup_app_fresh.
      * intros ->. contradiction.
      * apply Hfresh. now right.
Qed.

Lemma spread_fresh (base : value) :
  NoDup (map fst (own_props base)) -> spread base [] = own_props base.
Proof.
  intros Hnd. unfold spread.
  now rewrite fold_set_prop_fresh by (try exact Hnd; reflexivity).
Qed.

(** X14: the payload sent for a recipient.  With the properties of
    [base] (keys distinct, as in any object) it holds [receipt_phone],
    the recipient's phone, whatever [base] had under that key; it holds
    [receipt_name] when the name is not empty, and otherwise what [base]
    has under that key, if anything; every other field is the one of
    [base]; and when [base] has neither key its fields come first, in
    their order, then [receipt_phone], then [receipt_name]. *)
Theorem payload_of_fields (base name phone : value) :
  NoDup (map fst (own_props base)) ->
  get (payload_of base name phone) "receipt_phone" = phone /\
  (truthy name = true -> get (payload_of base name phone) "receipt_name" = name) /\
  (truthy name = false ->
     get (payload_of base name phone) "receipt_name" =
     get (VObj (own_props base)) "receipt_name") /\
  (forall k, k <> "receipt_phone" -> k <> "receipt_name" ->
     get (payload_of base name phone) k = get (VObj (own_props base)) k) /\
  (lookup "receipt_phone" (own_props base) = None ->
   lookup "receipt_name" (own_props base) = None ->
   payload_of base name phone =
     VObj (own_props base ++ ("receipt_phone", phone) ::
           (if truthy name then [("receipt_name", name)] else []))).
Proof.
  intros Hnd. unfold payload_of. rewrite (spread_fresh base Hnd).
  split; [|split; [|split; [|split]]].
  - destruct (truthy name); simpl.
    + rewrite lookup_set_other by discriminate. now rewrite lookup_set_same.
    + now rewrite lookup_set_same.
  - intros ->. simpl. now rewrite lookup_set_same.
  - intros ->. simpl. now rewrite lookup_set_other by discriminate.
  - intros k Hp Hn. destruct (truthy name); simpl.
    + now rewrite !lookup_set_other by assumption.
    + now rewrite lookup_set_other by assumption.
  - intros Hp Hn. rewrite (set_prop_fresh _ _ _ Hp).
    destruct (truthy name); [|reflexivity].
    rewrite set_prop_fresh.
    + now rewrite <- app_assoc.
    + apply lookup_app_fresh; [discriminate|exact Hn].
Qed.

(** *** Normalising twice *)

Lemma set_prop_twice (k : string) (v v' : value) (ps : list (string * value)) :
  set_prop k v (set_prop k v' ps) = set_prop k v ps.
Proof.
  induction ps as [|[k' v0] rest IH]; simpl.
  - now rewrite String.eqb_refl.
  - destruct (String.eqb k k') eqn:E; simpl.
    + now rewrite String.eqb_refl.
    + now rewrite E, IH.
Qed.

Lemma normalize_is_web_absent (base : value) :
  get base "is_web" = VUndefined -> normalize_is_web base = base.
Proof.
  intros H. unfold normalize_is_web. now rewrite H.
Qed.

Lemma normalize_is_web_present (ps : list (string * value)) (v0 : value) :
  lookup "is_web" ps = Some v0 ->
  v0 <> VUndefined ->
  normalize_is_web (VObj ps) =
  VObj (set_prop "is_web"
          (if includes [VStr "1"; VStr "true"; VStr "True"; num_of_Z 1;
                        VBool true] v0
           then VStr "1" else VStr "0") ps).
Proof.
  intros Hl Hv. unfold normalize_is_web. simpl get. rewrite Hl.
  now rewrite (is_undefined_false v0 Hv).
Qed.

(** X15: the normalisation of [is_web] is idempotent: a [base] that
    went through it is left as it is by a second pass. *)
Theorem normalize_is_web_idempotent (base : value) :
  normalize_is_web (normalize_is_web base) = normalize_is_web base.
Proof.
  destruct (is_undefined (get base "is_web")) eqn:Eu.
  - assert (get base "is_web" = VUndefined) as Hu
      by (destruct (get base "is_web"); try discriminate Eu; reflexivity).
    now rewrite !(normalize_is_web_absent base Hu).
  - destruct base as [| |b|n|s|xs|ps]; try discriminate Eu.
    simpl in Eu. destruct (lookup "is_web" ps) as [v0|] eqn:El;
      [|discriminate Eu].
    assert (Hv : v0 <> VUndefined) by (intros ->; discriminate Eu).
    rewrite (normalize_is_web_present ps v0 El Hv).
    destruct (includes _ v0).
    + rewrite (normalize_is_web_present _ (VStr "1") (lookup_set_same _ _ _))
        by discriminate.
      change (includes _ (VStr "1")) with true. cbv iota.
      now rewrite set_prop_twice.
    + rewrite (normalize_is_web_present _ (VStr "0") (lookup_set_same _ _ _))
        by discriminate.
      change (includes _ (VStr "0")) with false. cbv iota.
      now rewrite set_prop_twice.
Qed.

(** *** What [postOnce] sends *)

(** X16: [postOnce] sends nothing when the encoder throws, and it then
    throws the same exception; otherwise it sends exactly one request, to
    [apiUrl], with the encoded [formObj], the form content type and an
    [Authorization] header exactly when [authHeader] is not empty.  Any
    answer with a status, in [200,300) or not, is returned as
    [{status, body}]; only a rejected request throws. *)
Theorem postOnce_sends (apiUrl formObj authHeader : value) (w w' : world)
  (c : completion send_outcome) :
  postOnce apiUrl formObj authHeader w = Some (c, w') ->
  (exists e, toFormBody formObj = Throw e /\ c = Throw e /\ w' = w) \/
  (exists r,
     w' = w ++ [EFetch r] /\
     url r = apiUrl /\
     toFormBody formObj = Normal (form r) /\
     lookup "Content-Type" (headers r) =
       Some (VStr "application/x-www-form-urlencoded") /\
     lookup "Authorization" (headers r) =
       (if truthy authHeader then Some authHeader else None) /\
     match downstream (fetch_count w) r with
     | Responded st text =>
         c = Normal {| status := st; body := decode_body text |}
     | Rejected e => c = Throw e
     end).
Proof.
  intros H. apply postOnce_inv in H.
  destruct H as [[e He]|[sp [Hsp [-> Hc]]]]; [left; eauto|].
  right. exists (post_request apiUrl authHeader sp).
  split; [reflexivity|]. split; [reflexivity|]. split; [exact Hsp|].
  split; [|split].
  - unfold post_request, post_headers. simpl headers.
    destruct (truthy authHeader); reflexivity.
  - unfold post_request, post_headers. simpl headers.
    destruct (truthy authHeader); reflexivity.
  - destruct c as [res|e].
    + destruct Hc as [text [-> Hb]]. destruct res as [st bd]. simpl in *.
      now subst.
    + now rewrite Hc.
Qed.

(** *** When the encoder throws *)

Lemma toFormBody_loop_throws (entries : list (string * value)) :
  forall (sp : list (string * string)),
  (exists e, toFormBody_loop entries sp = Throw e) <->
  (exists k v,
     In (k, v) (filter (fun kv => negb (is_nullish (snd kv))) entries) /\
     exists e, ToString v = Throw e).
Proof.
  induction entries as [|[k v] rest IH]; intros sp.
  - simpl. split.
    + intros [e He]. discriminate He.
    + intros [k [v [[] _]]].
  - simpl toFormBody_loop. rewrite is_undefined_or_null. simpl filter.
    destruct (is_nullish v) eqn:En; simpl negb; cbv iota.
    + apply IH.
    + destruct (ToString v) as [s|e] eqn:Es; simpl cbind.
      * rewrite IH. split.
        -- intros [k' [v' [Hin He]]]. exists k', v'. split; [now right|exact He].
        -- intros [k' [v' [[Heq|Hin] [e He]]]].
           ++ inversion Heq; subst. rewrite Es in He. discriminate He.
           ++ exists k', v'. split; [exact Hin|eauto].
      * split.
        -- intros _. exists k, v. split; [now left|eauto].
        -- intros _. eauto.
Qed.

(** X19: [toFormBody] throws exactly when [String] throws on the value
    of one of the entries it keeps (an object with its own [toString],
    or an array that holds one); [undefined] and [null] entries are
    skipped before any conversion and can never make it throw. *)
Theorem toFormBody_throws_iff (obj : value) :
  (exists e, toFormBody obj = Throw e) <->
  (exists k v,
     In (k, v) (kept_entries obj) /\ exists e, ToString v = Throw e).
Proof.
  unfold toFormBody, kept_entries. apply toFormBody_loop_throws.
Qed.

End Server.

(** ** Concrete runs *)

(** C3 at work: a downstream that always answers 503, [retries = 2]:
    three attempts, then [{ok: false, status: 503, body}]. *)
Lemma postWithRetry_exhausted_witness :
  exists out w',
    postWithRetry print_number parse_json always_503 4 demo_url demo_form
      demo_auth (Fin (inject_Z 2)) (Fin 500) [] = Some (Normal (VObj out), w') /\
    out = [("ok", VBool false); ("status", num_of_Z 503);
           ("body", VObj [("raw", VStr "busy")])] /\
    lookup "attempt" out = None /\
    w' = paced_attempts (post_request demo_url demo_auth demo_sp) (Fin 500) 2
           ++ [EFetch (post_request demo_url demo_auth demo_sp)] /\
    fetch_count w' = 3%nat.
Proof.
  apply (postWithRetry_exhausted print_number parse_json always_503
           demo_url demo_form demo_auth (Fin 500) demo_sp 2 4 []).
  - reflexivity.
  - lia.
  - intros i _. reflexivity.
  - simpl. lia.
Defined.

(** C4 at work: the first two calls are rejected, the third answers
    200: [{ok: true, attempt: 2, status: 200, body}] after three calls. *)
Lemma postWithRetry_first_success_witness :
  exists w',
    postWithRetry print_number parse_json fails_twice 3 demo_url demo_form
      demo_auth (Fin (inject_Z 2)) (Fin 500) [] =
      Some (Normal (VObj [("ok", VBool true); ("attempt", num_of_nat 2);
                          ("status", num_of_Z 200); ("body", VObj [])]), w') /\
    w' = paced_attempts (post_request demo_url demo_auth demo_sp) (Fin 500) 2
           ++ [EFetch (post_request demo_url demo_auth demo_sp)] /\
    fetch_count w' = 3%nat.
Proof.
  apply (postWithRetry_first_success print_number parse_json fails_twice
           demo_url demo_form demo_auth (Fin 500) demo_sp 2 2 200 "{}" 3 []).
  - reflexivity.
  - simpl. lia.
  - intros i Hi. simpl.
    destruct i as [|[|i]]; [reflexivity|reflexivity|lia].
  - reflexivity.
  - reflexivity.
  - lia.
Defined.

(** C9 at work: [maxRetries: -1]. *)
Lemma postWithRetry_negative_retries_witness :
  postWithRetry print_number parse_json always_200 1 demo_url demo_form
    demo_auth (Fin (-1)) (Fin 500) [] =
    Some (Normal (VObj [("ok", VBool false)]), []).
Proof.
  apply (postWithRetry_negative_retries print_number parse_json always_200
           demo_url demo_form demo_auth (-1) (Fin 500) fallback_max_retries 0 []).
  reflexivity.
Defined.


(** C7 at work: [is_web: true] becomes ["1"]. *)
Lemma is_web_normalized_witness :
  get (normalize_is_web (VObj [("song_id", VStr "94"); ("is_web", VBool true)]))
    "is_web" = VStr "1".
Proof.
  apply (is_web_normalized (VObj [("song_id", VStr "94"); ("is_web", VBool true)])).
  right. right. right. right. reflexivity.
Defined.

(** White space outside Basic Latin is stripped too; a character that
    only looks like a space (U+200B) or ends on the byte 160 is kept. *)
Lemma trim_white_space :
  trim (nbsp ++ " Token abc" ++ ideographic_space ++ nbsp ++ " ")%string
    = "Token abc" /\
  trim nbsp = "" /\
  trim (String (ascii_of_nat 195) (String (ascii_of_nat 160) EmptyString))
    = String (ascii_of_nat 195) (String (ascii_of_nat 160) EmptyString) /\
  trim (String (ascii_of_nat 226) (String (ascii_of_nat 128)
          (String (ascii_of_nat 139) EmptyString)))
    = String (ascii_of_nat 226) (String (ascii_of_nat 128)
        (String (ascii_of_nat 139) EmptyString)).
Proof.
  repeat split.
Qed.

(** C6 at work: the header wins over the body field; with nothing to
    authenticate with the answer is 400 and nothing is sent, also when
    the only credential is a no-break space. *)
Lemma auth_precedence_witness :
  resolve_authHeader fallback_auth_header demo_request = Normal (VStr "Token abc") /\
  (exists resp,
     send_bulk print_number parse_json always_200 fallback_api_url
       fallback_auth_header fallback_max_retries fallback_pause_ms 5
       anonymous_request [] = Some (resp, []) /\
     resp = missing_auth /\ code resp = 400%Z) /\
  (exists resp,
     send_bulk print_number parse_json always_200 fallback_api_url
       fallback_auth_header fallback_max_retries fallback_pause_ms 5
       nbsp_request [] = Some (resp, []) /\
     resp = missing_auth /\ code resp = 400%Z).
Proof.
  split; [|split].
  - apply (proj1 (auth_precedence print_number parse_json always_200
                    fallback_api_url fallback_auth_header fallback_max_retries
                    fallback_pause_ms demo_request) " Token abc " eq_refl).
    discriminate.
  - destruct (proj2 (proj2 (proj2 (auth_precedence print_number parse_json
                always_200 fallback_api_url fallback_auth_header
                fallback_max_retries fallback_pause_ms anonymous_request)))
                (or_intror (ex_intro _ "   " (conj eq_refl eq_refl)))
                (or_intror (ex_intro _ " " (conj eq_refl eq_refl)))
                eq_refl 5%nat [])
      as [resp [Hrun Hresp]].
    exists resp. split; [exact Hrun|]. apply Hresp. left. reflexivity.
  - destruct (proj2 (proj2 (proj2 (auth_precedence print_number parse_json
                always_200 fallback_api_url fallback_auth_header
                fallback_max_retries fallback_pause_ms nbsp_request)))
                (or_introl eq_refl)
                (or_intror (ex_intro _ nbsp (conj eq_refl eq_refl)))
                eq_refl 5%nat [])
      as [resp [Hrun Hresp]].
    exists resp. split; [exact Hrun|]. apply Hresp. left. reflexivity.
Defined.

(** C5 at work: the second recipient has an empty phone; even without
    any fuel for the retry controller its result is recorded, and the
    log stays empty. *)
Lemma missing_phone_no_call_witness :
  exists x w',
    process_recipient print_number parse_json always_200 0 demo_url demo_auth
      (VObj []) fallback_max_retries fallback_pause_ms demo_recipients 1
      empty_tally [] =
      Some (Normal {| results := [x]; success := 0; failed := 1 |}, w') /\
    get x "ok" = VBool false /\
    get x "status" = num_of_Z 400 /\
    get x "body" = VObj [("error", VStr "Missing phone")] /\
    w' = [] /\ fetch_count w' = 0%nat.
Proof.
  apply (missing_phone_no_call print_number parse_json always_200 0 demo_url
           demo_auth (VObj []) fallback_max_retries fallback_pause_ms
           demo_recipients 1 empty_tally []).
  reflexivity.
Defined.

(** C10 at work: a [null] entry gives [name: ""] and [phone: undefined],
    and the loop goes on with the next index. *)
Lemma entry_without_phone_continues_witness :
  for_each [0; 1]%nat
    (process_recipient print_number parse_json always_200 2 demo_url demo_auth
       (VObj []) fallback_max_retries fallback_pause_ms
       [VNull; VObj [("phone", VStr "C")]]) empty_tally [] =
  for_each [1]%nat
    (process_recipient print_number parse_json always_200 2 demo_url demo_auth
       (VObj []) fallback_max_retries fallback_pause_ms
       [VNull; VObj [("phone", VStr "C")]])
    {| results := [VObj [("index", num_of_nat 1); ("name", VStr "");
                         ("phone", VUndefined); ("ok", VBool false);
                         ("status", num_of_Z 400);
                         ("body", VObj [("error", VStr "Missing phone")])]];
       success := 0; failed := 1 |} [].
Proof.
  apply (entry_without_phone_continues print_number parse_json always_200 2
           demo_url demo_auth (VObj []) fallback_max_retries fallback_pause_ms
           [VNull; VObj [("phone", VStr "C")]] 0 [1%nat] empty_tally []).
  reflexivity.
Defined.

(** C10 as stated fails: an entry with a name and an empty phone lacks a
    truthy [phone], yet its result keeps the name ["Bob"] and the phone
    [""]; it is not the result of an empty record. *)
Lemma entry_without_phone_keeps_its_fields :
  truthy (phone_of bob_without_phone) = false /\
  exists t',
    process_recipient print_number parse_json always_200 2 demo_url demo_auth
      (VObj []) fallback_max_retries fallback_pause_ms [bob_without_phone] 0
      empty_tally [] = Some (Normal t', []) /\
    results t' =
      [VObj [("index", num_of_nat 1); ("name", VStr "Bob"); ("phone", VStr "");
             ("ok", VBool false); ("status", num_of_Z 400);
             ("body", VObj [("error", VStr "Missing phone")])]] /\
    results t' <>
      [VObj [("index", num_of_nat 1); ("name", VStr ""); ("phone", VUndefined);
             ("ok", VBool false); ("status", num_of_Z 400);
             ("body", VObj [("error", VStr "Missing phone")])]].
Proof.
  split; [reflexivity|].
  eexists. split; [reflexivity|]. split; [reflexivity|].
  simpl. discriminate.
Qed.

(** C1 at work: after the first recipient, whose phone is there, the
    log ends with the pause. *)
Lemma pause_after_dispatch_witness :
  exists t',
    process_recipient print_number parse_json always_200 2 demo_url demo_auth
      (VObj []) fallback_max_retries fallback_pause_ms demo_recipients 0
      empty_tally [] =
    Some (Normal t',
          [EFetch (post_request demo_url demo_auth
                     [("receipt_phone", "A"); ("receipt_name", "Ann")]);
           ESleep fallback_pause_ms]).
Proof.
  eexists.
  apply (proj1 (pause_after_dispatch print_number parse_json always_200 2
                  demo_url demo_auth (VObj []) fallback_max_retries
                  fallback_pause_ms demo_recipients 0 empty_tally [])
           eq_refl
           (VObj [("ok", VBool true); ("attempt", num_of_Z 0);
                  ("status", num_of_Z 200); ("body", VObj [])])
           [EFetch (post_request demo_url demo_auth
                      [("receipt_phone", "A"); ("receipt_name", "Ann")])]).
  reflexivity.
Defined.

(** C1 as stated fails: a request whose only recipient has an empty
    phone is answered with a 200 reporting that recipient, and the log
    is empty: no pause followed the recipient. *)
Lemma no_pause_after_missing_phone :
  exists resp w',
    send_bulk print_number parse_json always_200 fallback_api_url
      fallback_auth_header fallback_max_retries fallback_pause_ms 5
      bob_request [] = Some (resp, w') /\
    code resp = 200%Z /\
    get (get (json resp) "summary") "total" = num_of_nat 1 /\
    sleep_count w' = 0%nat /\
    (forall w1, w' <> w1 ++ [ESleep fallback_pause_ms]).
Proof.
  eexists. eexists. split; [reflexivity|].
  split; [reflexivity|]. split; [reflexivity|]. split; [reflexivity|].
  intros w1 H. destruct w1; discriminate H.
Qed.

(** C2 at work: three recipients, the second without a phone, a
    downstream that always answers 200. *)
Lemma send_bulk_report_witness :
  exists resp w',
    send_bulk print_number parse_json always_200 fallback_api_url
      fallback_auth_header fallback_max_retries fallback_pause_ms 5
      demo_request [] = Some (resp, w') /\
    exists t,
      resp = {| code := 200;
                json := VObj [("summary",
                               VObj [("total", num_of_nat 3);
                                     ("success", num_of_nat (success t));
                                     ("failed", num_of_nat (failed t))]);
                              ("results", VArr (results t))] |} /\
      length (results t) = 3%nat /\
      (success t + failed t = 3)%nat /\
      map (fun x => get x "index") (results t) =
        [num_of_nat 1; num_of_nat 2; num_of_nat 3] /\
      NoDup (map (fun x => get x "index") (results t)).
Proof.
  destruct (send_bulk_report print_number parse_json always_200
              fallback_api_url fallback_auth_header fallback_max_retries
              fallback_pause_ms demo_request demo_recipients demo_url demo_auth
              5 [] eq_refl eq_refl eq_refl eq_refl ltac:(discriminate))
    as [Hprops Hret].
  destruct (Hret ltac:(discriminate) ltac:(vm_compute; lia))
    as [resp [w' Hrun]].
  exists resp, w'. split; [exact Hrun|]. exact (Hprops resp w' Hrun).
Defined.

(** ** The defaults and the handler *)


(** X18: with a [MAX_RETRIES] that is set but does not start with
    digits, and no finite [maxRetries] in the body, a validated request
    is answered with a 200 that reports every recipient as failed, and
    nothing is sent. *)
Theorem send_bulk_unparsable_max_retries
  (Number_toString : number -> string) (JSON_parse : string -> option value)
  (downstream : nat -> fetch_request -> fetch_outcome)
  (env : string -> option string) (Number_of_Z : Z -> number)
  (s : string) (req : request) (rs : list value) (u a : value)
  (fuel : nat) (w : world) :
  env "MAX_RETRIES" = Some s ->
  digits_value (snd (signed_part s)) None = None ->
  Number_isFinite (get (req_body req) "maxRetries") = false ->
  resolve_apiUrl (env_API_URL env) req = Normal u ->
  resolve_authHeader (env_AUTH_HEADER env) req = Normal a ->
  truthy a = true ->
  get (req_body req) "recipients" = VArr rs ->
  rs <> [] ->
  exists t w',
    send_bulk Number_toString JSON_parse downstream (env_API_URL env)
      (env_AUTH_HEADER env) (env_MAX_RETRIES env Number_of_Z)
      (env_PAUSE_MS env Number_of_Z) (S fuel) req w
      = Some (report (length rs) t, w') /\
    success t = 0%nat /\
    failed t = length rs /\
    fetch_count w' = fetch_count w.
Proof.
  intros Henv Hd Hfin Hu Ha Hta Hrs Hne.
  assert (Hnan : env_MAX_RETRIES env Number_of_Z = NaN).
  { unfold env_MAX_RETRIES, env_coalesce, parseInt10. now rewrite Henv, Hd. }
  assert (Hle : Z_le_num 0
                  (resolved_maxRetries (env_MAX_RETRIES env Number_of_Z) req)
                = false).
  { unfold resolved_maxRetries, finite_or. rewrite Hnan.
    destruct (get (req_body req) "maxRetries") as [| |b|[q|b|]|s0|xs|ps];
      try reflexivity; discriminate Hfin. }
  rewrite (send_bulk_valid Number_toString JSON_parse downstream _ _ _ _
             (S fuel) req rs u a w Hu Ha Hta Hrs Hne).
  destruct (for_each_no_attempts Number_toString JSON_parse downstream fuel u a
              (resolved_base req) _
              (resolved_pauseMs (env_PAUSE_MS env Number_of_Z) req) rs
              (length rs) Hle 0%nat empty_tally w)
    as [t [added [w' [-> [_ [_ [_ [Hs [Hf Hc]]]]]]]]].
  exists t, w'. simpl in Hs, Hf. repeat split; assumption.
Qed.

(** ** Further concrete runs *)

(** X1 at work: an endpoint that always answers 503, [retries = 2]. *)
Lemma postWithRetry_attempts_bounded_witness :
  exists log,
    paced_attempts (post_request demo_url demo_auth demo_sp) (Fin 500) 2
      ++ [EFetch (post_request demo_url demo_auth demo_sp)] = [] ++ log /\
    Forall (attempt_event print_number demo_url demo_form demo_auth (Fin 500))
      log /\
    (fetch_count log <= 3)%nat /\ (sleep_count log <= 3)%nat.
Proof.
  apply (postWithRetry_attempts_bounded print_number parse_json always_503 4
           demo_url demo_form demo_auth (Fin (inject_Z 2)) (Fin 500) []
           (paced_attempts (post_request demo_url demo_auth demo_sp) (Fin 500) 2
              ++ [EFetch (post_request demo_url demo_auth demo_sp)])
           (Normal (VObj [("ok", VBool false); ("status", num_of_Z 503);
                          ("body", VObj [("raw", VStr "busy")])]))).
  - reflexivity.
  - discriminate.
Defined.

(** X2 at work: the value returned when the third call succeeds. *)
Lemma postWithRetry_result_shape_witness :
  exists v,
    Normal (VObj [("ok", VBool true); ("attempt", num_of_Z 2);
                  ("status", num_of_Z 200); ("body", VObj [])]) = Normal v /\
    ((exists k st bd,
        v = VObj [("ok", VBool true); ("attempt", num_of_Z k);
                  ("status", num_of_Z st); ("body", bd)] /\
        (0 <= k)%Z /\ Z_le_num k (Fin (inject_Z 2)) = true /\
        (200 <= st < 300)%Z) \/
     (v = VObj [("ok", VBool false)] /\
      Z_le_num 0 (Fin (inject_Z 2)) = false /\
      paced_attempts (post_request demo_url demo_auth demo_sp) (Fin 500) 2
        ++ [EFetch (post_request demo_url demo_auth demo_sp)] = []) \/
     (exists st bd,
        v = VObj [("ok", VBool false); ("status", num_of_Z st); ("body", bd)] /\
        ~ (200 <= st < 300)%Z)).
Proof.
  apply (postWithRetry_result_shape print_number parse_json fails_twice 3
           demo_url demo_form demo_auth (Fin (inject_Z 2)) (Fin 500) []).
  reflexivity.
Defined.

(** X3 at work: a phone that is an object with its own [toString]
    cannot be encoded; with [retries = 2] nothing is sent and the log
    gains two pauses. *)
Lemma postWithRetry_encoding_failure_witness :
  postWithRetry print_number parse_json always_200 4 demo_url unprintable_form
    demo_auth (Fin (inject_Z 2)) (Fin 500) [] =
  Some (Normal (VObj [("ok", VBool false); ("status", num_of_Z 0);
                      ("body",
                       VObj [("error",
                              VStr "TypeError: Cannot convert object to primitive value")])]),
        [ESleep (Fin 500); ESleep (Fin 500)]).
Proof.
  apply (postWithRetry_encoding_failure print_number parse_json always_200 4
           demo_url unprintable_form demo_auth (Fin 500)
           "TypeError: Cannot convert object to primitive value" 2 []).
  - reflexivity.
  - lia.
  - simpl. lia.
Defined.

(** X4 at work: an endpoint that always answers 503 and
    [retries = +Infinity]. *)
Lemma postWithRetry_unbounded_retries_diverge_witness :
  postWithRetry print_number parse_json always_503 50 demo_url demo_form
    demo_auth (Inf false) (Fin 500) [] = None.
Proof.
  apply (postWithRetry_unbounded_retries_diverge print_number parse_json
           always_503 50 demo_url demo_form demo_auth (Fin 500) []).
  intros n r. reflexivity.
Defined.

(** X5 at work: [retries = 1.5] gives two attempts and two pauses. *)
Lemma postWithRetry_fractional_retries_witness :
  postWithRetry print_number parse_json always_503 4 demo_url demo_form
    demo_auth (Fin (3 # 2)) (Fin 500) [] =
  Some (Normal (VObj [("ok", VBool false); ("status", num_of_Z 503);
                      ("body", VObj [("raw", VStr "busy")])]),
        [EFetch (post_request demo_url demo_auth demo_sp); ESleep (Fin 500);
         EFetch (post_request demo_url demo_auth demo_sp); ESleep (Fin 500)]).
Proof.
  apply (postWithRetry_fractional_retries print_number parse_json always_503 4
           demo_url demo_form demo_auth (Fin 500) demo_sp (3 # 2) []).
  - reflexivity.
  - discriminate.
  - intros i _. reflexivity.
  - vm_compute. lia.
Defined.

(** X6 at work: an empty [recipients] array. *)
Lemma send_bulk_bad_recipients_witness :
  send_bulk print_number parse_json always_200 fallback_api_url
    fallback_auth_header fallback_max_retries fallback_pause_ms 5
    empty_list_request [] =
  Some ({| code := 400;
           json := VObj [("error",
                          VStr "recipients must be a non-empty array")] |}, []).
Proof.
  apply (send_bulk_bad_recipients print_number parse_json always_200
           fallback_api_url fallback_auth_header fallback_max_retries
           fallback_pause_ms 5 empty_list_request demo_url demo_auth []).
  - reflexivity.
  - reflexivity.
  - reflexivity.
  - intros rs H. inversion H. reflexivity.
Defined.

(** X7 at work: [apiUrl: 7]. *)
Lemma send_bulk_type_error_witness :
  exists e,
    send_bulk print_number parse_json always_200 fallback_api_url
      fallback_auth_header fallback_max_retries fallback_pause_ms 5
      numeric_url_request [] =
    Some ({| code := 500; json := VObj [("error", VStr e)] |}, []).
Proof.
  apply (proj1 (send_bulk_type_error print_number parse_json always_200
                  fallback_api_url fallback_auth_header fallback_max_retries
                  fallback_pause_ms 5 numeric_url_request [])).
  - reflexivity.
  - intros s H. discriminate H.
Defined.

(** X8 at work: the 400 of a request without credentials. *)
Lemma send_bulk_status_codes_witness :
  (code missing_auth = 200%Z \/ code missing_auth = 400%Z \/
   code missing_auth = 500%Z) /\
  (code missing_auth = 500%Z <->
   (exists e, resolve_apiUrl fallback_api_url anonymous_request = Throw e) \/
   (exists e, resolve_authHeader fallback_auth_header anonymous_request
              = Throw e)) /\
  (code missing_auth <> 200%Z -> @nil event = []).
Proof.
  apply (send_bulk_status_codes print_number parse_json always_200
           fallback_api_url fallback_auth_header fallback_max_retries
           fallback_pause_ms 5 anonymous_request [] [] missing_auth).
  reflexivity.
Defined.

(** X9 at work: the counters of the three-recipient run. *)
Lemma send_bulk_summary_counts_witness :
  exists resp w',
    send_bulk print_number parse_json always_200 fallback_api_url
      fallback_auth_header fallback_max_retries fallback_pause_ms 5
      demo_request [] = Some (resp, w') /\
    exists t,
      resp = report (length demo_recipients) t /\
      success t = length (filter is_ok (results t)) /\
      failed t = length (filter (fun x => negb (is_ok x)) (results t)).
Proof.
  eexists. eexists. split; [reflexivity|].
  eapply (send_bulk_summary_counts print_number parse_json always_200
            fallback_api_url fallback_auth_header fallback_max_retries
            fallback_pause_ms 5 demo_request demo_recipients demo_url
            demo_auth []); try reflexivity.
  discriminate.
Defined.

(** X10 at work: the results of the three-recipient run, entry by
    entry. *)
Lemma send_bulk_results_match_recipients_witness :
  exists resp w',
    send_bulk print_number parse_json always_200 fallback_api_url
      fallback_auth_header fallback_max_retries fallback_pause_ms 5
      demo_request [] = Some (resp, w') /\
    exists t,
      resp = report (length demo_recipients) t /\
      Forall2 (result_for demo_recipients) (seq 0 (length demo_recipients))
        (results t).
Proof.
  eexists. eexists. split; [reflexivity|].
  eapply (send_bulk_results_match_recipients print_number parse_json always_200
            fallback_api_url fallback_auth_header fallback_max_retries
            fallback_pause_ms 5 demo_request demo_recipients demo_url
            demo_auth []); try reflexivity.
  discriminate.
Defined.

(** X11 at work: what the three-recipient run adds to the log. *)
Lemma send_bulk_requests_witness :
  exists resp w',
    send_bulk print_number parse_json always_200 fallback_api_url
      fallback_auth_header fallback_max_retries fallback_pause_ms 5
      demo_request [] = Some (resp, w') /\
    exists log,
      w' = [] ++ log /\
      Forall (dispatch_event print_number demo_url demo_auth
                (resolved_base demo_request)
                (resolved_pauseMs fallback_pause_ms demo_request)
                demo_recipients) log.
Proof.
  eexists. eexists. split; [reflexivity|].
  eapply (send_bulk_requests print_number parse_json always_200
            fallback_api_url fallback_auth_header fallback_max_retries
            fallback_pause_ms 5 demo_request demo_recipients demo_url
            demo_auth []); try reflexivity.
  discriminate.
Defined.

(** X12 at work: against an endpoint that always answers 503, two
    recipients with a phone and [maxRetries = 2] make at most six
    requests. *)
Lemma send_bulk_load_bound_witness :
  exists resp w',
    send_bulk print_number parse_json always_503 fallback_api_url
      fallback_auth_header fallback_max_retries fallback_pause_ms 5
      demo_request [] = Some (resp, w') /\
    (fetch_count w' <= 0 + 2 * 3)%nat /\
    (sleep_count w' <= 0 + 2 * 4)%nat.
Proof.
  eexists. eexists. split; [reflexivity|].
  eapply (send_bulk_load_bound print_number parse_json always_503
            fallback_api_url fallback_auth_header fallback_max_retries
            fallback_pause_ms 5 demo_request demo_recipients demo_url
            demo_auth []); try reflexivity; discriminate.
Defined.

(** X13 at work: [maxRetries: -1]. *)
Lemma send_bulk_no_attempts_witness :
  exists t w',
    send_bulk print_number parse_json always_200 fallback_api_url
      fallback_auth_header fallback_max_retries fallback_pause_ms 1
      negative_retries_request [] = Some (report (length demo_recipients) t, w') /\
    length (results t) = length demo_recipients /\
    Forall (fun x => get x "ok" = VBool false) (results t) /\
    success t = 0%nat /\
    failed t = length demo_recipients /\
    fetch_count w' = fetch_count [].
Proof.
  apply (send_bulk_no_attempts print_number parse_json always_200
           fallback_api_url fallback_auth_header fallback_max_retries
           fallback_pause_ms 0 negative_retries_request demo_recipients
           demo_url demo_auth []); try reflexivity.
  discriminate.
Defined.

(** X14 at work: the phone of the recipient replaces a [receipt_phone]
    that [base] carries. *)
Lemma payload_of_fields_witness :
  get (payload_of (VObj [("song_id", VStr "94"); ("receipt_phone", VStr "old")])
         (VStr "Ann") (VStr "A")) "receipt_phone" = VStr "A".
Proof.
  apply (payload_of_fields
           (VObj [("song_id", VStr "94"); ("receipt_phone", VStr "old")])
           (VStr "Ann") (VStr "A")).
  simpl. repeat constructor; simpl; intuition discriminate.
Defined.

(** X16 at work: a 503 is returned, not thrown. *)
Lemma postOnce_sends_witness :
  (exists e,
     toFormBody print_number demo_form = Throw e /\
     Normal {| status := 503; body := VObj [("raw", VStr "busy")] |} = Throw e /\
     [EFetch (post_request demo_url demo_auth demo_sp)] = []) \/
  (exists r,
     [EFetch (post_request demo_url demo_auth demo_sp)] = [] ++ [EFetch r] /\
     url r = demo_url /\
     toFormBody print_number demo_form = Normal (form r) /\
     lookup "Content-Type" (headers r) =
       Some (VStr "application/x-www-form-urlencoded") /\
     lookup "Authorization" (headers r) =
       (if truthy demo_auth then Some demo_auth else None) /\
     match always_503 (fetch_count []) r with
     | Responded st text =>
         Normal {| status := 503; body := VObj [("raw", VStr "busy")] |} =
         Normal {| status := st; body := decode_body parse_json text |}
     | Rejected e =>
         Normal {| status := 503; body := VObj [("raw", VStr "busy")] |} = Throw e
     end).
Proof.
  apply (postOnce_sends print_number parse_json always_503 demo_url demo_form
           demo_auth []).
  reflexivity.
Defined.

(** X18 at work: [MAX_RETRIES=two]. *)
Lemma send_bulk_unparsable_max_retries_witness :
  exists t w',
    send_bulk print_number parse_json always_200 (env_API_URL broken_env)
      (env_AUTH_HEADER broken_env) (env_MAX_RETRIES broken_env exact_number)
      (env_PAUSE_MS broken_env exact_number) 1 plain_request []
      = Some (report (length demo_recipients) t, w') /\
    success t = 0%nat /\
    failed t = length demo_recipients /\
    fetch_count w' = fetch_count [].
Proof.
  apply (send_bulk_unparsable_max_retries print_number parse_json always_200
           broken_env exact_number "two" plain_request demo_recipients
           demo_url demo_auth 0 []); try reflexivity.
  discriminate.
Defined.
